(** * FaceSwap: the image-compositing pipeline and the identity tint

    A shallow embedding of the two [FaceSwapService] classes of the
    repository:

    - the whole-frame tint of the demo service ([applyFaceSwapEffect]),
      which works on the bytes of an [ImageData];
    - the canvas pipeline of the main service ([calculateFaceTransform],
      [applyFeathering], [getBlendMode], [getBlendOpacity],
      [applyColorMatching], [performAdvancedSwap], [swapFace]), which works
      on a [CanvasRenderingContext2D].

    Around them: the rest of the two services (their life cycle, the swap
    of a canvas by the demo service), the mock face detector, the face
    database and the matching of a detected face by the hook.

    JavaScript numbers are IEEE binary64 values: they are Rocq's primitive
    floats here, so that a run of the model on concrete inputs is a run of
    the program.  The geometry is written once over an interface of the
    arithmetic it uses ([Number]), so that what holds of every instance
    holds of the program; its second instance, the rationals, is the exact
    arithmetic in which the algebraic laws of the transform and of the
    mask hold, and against which the doubles are compared. *)

From Stdlib Require Import ZArith QArith Qabs Qminmax Lqa Lia Uint63 PrimFloat FloatOps SpecFloat
  FloatAxioms.
From stdpp Require Import gmap strings list pretty.

Set Warnings "-inexact-float".
Local Open Scope Z_scope.

(** ** JavaScript values the code relies on *)

Module JS.

(** The own properties of [Object.prototype].  An object literal inherits
    them, so [obj[key]] finds them when [key] is not an own property of
    [obj]; each is a function, except [__proto__] whose getter yields the
    prototype object.  All are truthy and none has a property [r], [g] or
    [b]. *)
Definition object_prototype_keys : list string :=
  [ "constructor"; "__defineGetter__"; "__defineSetter__"; "hasOwnProperty";
    "__lookupGetter__"; "__lookupSetter__"; "isPrototypeOf";
    "propertyIsEnumerable"; "toString"; "valueOf"; "__proto__";
    "toLocaleString" ]%string.

(** The result of evaluating [obj[key]] on an object literal. *)
Inductive looked (A : Type) : Type :=
| Own (a : A)
| Inherited (key : string)
| Absent.
Arguments Own {A} a.
Arguments Inherited {A} key.
Arguments Absent {A}.

Definition get {A : Type} (obj : gmap string A) (key : string) : looked A :=
  match obj !! key with
  | Some a => Own a
  | None => if decide (key ∈ object_prototype_keys) then Inherited key else Absent
  end.

(** A value that is either of the expected type or one of the built-ins
    reached through the prototype. *)
Inductive value (A : Type) : Type :=
| Val (a : A)
| Builtin (key : string).
Arguments Val {A} a.
Arguments Builtin {A} key.

(** [obj[key] || d]: the left operand when it is truthy, [d] otherwise;
    [undefined] is falsy, functions and objects are truthy. *)
Definition or_default {A : Type} (truthy : A -> bool) (l : looked A) (d : A) : value A :=
  match l with
  | Own a => if truthy a then Val a else Val d
  | Inherited key => Builtin key
  | Absent => Val d
  end.

(** [Math.min] on two numbers. *)
Definition math_min (a b : float) : float :=
  if (is_nan a || is_nan b)%bool then nan
  else if (a <? b)%float then a
  else if (b <? a)%float then b
  else if get_sign a then a else b.

(** [Math.max] on two numbers. *)
Definition math_max (a b : float) : float :=
  if (is_nan a || is_nan b)%bool then nan
  else if (a <? b)%float then b
  else if (b <? a)%float then a
  else if get_sign a then b else a.

(** An integer as a number. *)
Definition of_Z (z : Z) : float :=
  match z with
  | Z0 => zero
  | Zpos _ => of_uint63 (Uint63.of_Z z)
  | Zneg p => (- of_uint63 (Uint63.of_Z (Zpos p)))%float
  end.

(** The integer part of a finite number, rounded towards zero; [None] for
    NaN and the infinities. *)
Definition integer_part (x : float) : option Z :=
  match Prim2SF x with
  | S754_zero _ => Some 0
  | S754_finite s m e =>
      let mag := match e with
                 | Zneg k => Z.shiftr (Zpos m) (Zpos k)
                 | _ => Z.shiftl (Zpos m) e
                 end in
      Some (if s then - mag else mag)
  | _ => None
  end.

(** [ToUint8Clamp], the conversion applied by a store into a
    [Uint8ClampedArray]: NaN gives 0, the value is clamped to [0, 255] and
    rounded to the nearest integer, ties to even. *)
Definition to_uint8_clamp (x : float) : Z :=
  if is_nan x then 0
  else if (x <=? 0)%float then 0
  else if (255 <=? x)%float then 255
  else
    let f := default 0 (integer_part x) in
    let half := (of_Z f + 0.5)%float in
    if (x <? half)%float then f
    else if (half <? x)%float then f + 1
    else if Z.even f then f else f + 1.

End JS.

(** ** The order of the doubles

    [<] and [<=] on doubles compare the numbers they denote; NaN compares
    false with everything.  A double that is not NaN has a rank, a triple
    of integers that the comparison orders lexicographically: the class
    (negative infinity, negative, zero, positive, positive infinity), then
    the exponent and the mantissa, both negated for a negative number. *)

Definition rank (f : spec_float) : option (Z * Z * Z) :=
  match f with
  | S754_nan => None
  | S754_zero _ => Some (0, 0, 0)
  | S754_infinity s => Some (if s then -2 else 2, 0, 0)
  | S754_finite s m e => Some (if s then (-1, - e, Zneg m) else (1, e, Zpos m))
  end.

Definition lex_compare (a b : Z * Z * Z) : comparison :=
  let '(a1, a2, a3) := a in
  let '(b1, b2, b3) := b in
  match a1 ?= b1 with
  | Eq => match a2 ?= b2 with Eq => a3 ?= b3 | c => c end
  | c => c
  end.

Definition lex_lt (a b : Z * Z * Z) : Prop :=
  let '(a1, a2, a3) := a in
  let '(b1, b2, b3) := b in
  a1 < b1 \/ (a1 = b1 /\ (a2 < b2 \/ (a2 = b2 /\ a3 < b3))).

(** ** The whole-frame tint (demo service) *)

Module Tint.

(** An [ImageData]: its [data] is a [Uint8ClampedArray] of RGBA bytes. *)
Record ImageData : Type := { width : Z; height : Z; data : list Z }.

Record Factors : Type := { r : float; g : float; b : float }.

Definition transformations : gmap string Factors :=
  {[ "einstein" := {| r := 1.1; g := 1.0; b := 0.9 |};
     "mona-lisa" := {| r := 1.05; g := 0.95; b := 0.85 |};
     "obama" := {| r := 0.95; g := 0.9; b := 0.8 |} ]}.

(** [transformations[targetFaceId] || { r: 1, g: 1, b: 1 }] *)
Definition transform_for (targetFaceId : string) : JS.value Factors :=
  JS.or_default (fun _ => true) (JS.get transformations targetFaceId)
    {| r := 1; g := 1; b := 1 |}.

(** [transform.r] and its siblings as operands of [*]: a property that
    does not exist reads [undefined], which is NaN as a number. *)
Definition factor (field : Factors -> float) (t : JS.value Factors) : float :=
  match t with
  | JS.Val f => field f
  | JS.Builtin _ => nan
  end.

(** [data[i]] as an operand of [*]; [undefined] past the end. *)
Definition element (d : list Z) (i : nat) : float :=
  match d !! i with
  | Some v => JS.of_Z v
  | None => nan
  end.

(** [data[i] = x]; a store past the end of a typed array is dropped. *)
Definition store (d : list Z) (i : nat) (x : float) : list Z :=
  <[ i := JS.to_uint8_clamp x ]> d.

(** The body of the loop at index [i]. *)
Definition tint_pixel (t : JS.value Factors) (i : nat) (d : list Z) : list Z :=
  let d := store d i (JS.math_min 255 (element d i * factor r t)) in
  let d := store d (i + 1) (JS.math_min 255 (element d (i + 1) * factor g t)) in
  store d (i + 2) (JS.math_min 255 (element d (i + 2) * factor b t)).

(** [for (let i = 0; i < data.length; i += 4) ...], started at [i]; [fuel]
    bounds the number of iterations. *)
Fixpoint tint_loop (fuel : nat) (t : JS.value Factors) (i : nat) (d : list Z) : list Z :=
  match fuel with
  | O => d
  | S fuel' =>
      if (i <? length d)%nat then tint_loop fuel' t (i + 4) (tint_pixel t i d) else d
  end.

(** The array is mutated in place; [width] and [height] are read-only
    attributes of the [ImageData]. *)
Definition applyFaceSwapEffect (imageData : ImageData) (targetFaceId : string) : ImageData :=
  {| width := width imageData;
     height := height imageData;
     data := tint_loop (length (data imageData)) (transform_for targetFaceId) 0
               (data imageData) |}.

(** The factor of the channel stored at index [k], and the byte the loop
    leaves there for a byte [v]. *)
Definition channel_factor (t : JS.value Factors) (k : nat) : float :=
  match (k mod 4)%nat with
  | O => factor r t
  | S O => factor g t
  | _ => factor b t
  end.

Definition tinted (t : JS.value Factors) (k : nat) (v : Z) : Z :=
  JS.to_uint8_clamp (JS.math_min 255 (JS.of_Z v * channel_factor t k)).

Definition is_byte (v : Z) : Prop := 0 <= v <= 255.

End Tint.

(** ** The arithmetic of the geometric code *)

(** What the pipeline does with numbers.  [lit] is a numeric literal of the
    source (or an integer attribute read as a number), [n_lt] is [<], which
    is false on NaN, [integer_part] fails on NaN and the infinities. *)
Class Number (N : Type) : Type := {
  lit : Q -> N;
  n_add : N -> N -> N;
  n_sub : N -> N -> N;
  n_mul : N -> N -> N;
  n_div : N -> N -> N;
  n_min : N -> N -> N;
  n_max : N -> N -> N;
  n_lt : N -> N -> bool;
  finite : N -> bool;
  integer_part : N -> option Z
}.

Declare Scope num_scope.
Delimit Scope num_scope with num.
Infix "+" := n_add : num_scope.
Infix "-" := n_sub : num_scope.
Infix "*" := n_mul : num_scope.
Infix "/" := n_div : num_scope.
Infix "<?" := n_lt : num_scope.

(** The numbers of the program: IEEE binary64.  A decimal literal denotes
    the double nearest to it, which is what the correctly rounded quotient
    of its numerator and denominator gives. *)
#[export] Instance binary64 : Number float := {|
  lit q := (JS.of_Z (Qnum q) / JS.of_Z (Zpos (Qden q)))%float;
  n_add := PrimFloat.add;
  n_sub := PrimFloat.sub;
  n_mul := PrimFloat.mul;
  n_div := PrimFloat.div;
  n_min := JS.math_min;
  n_max := JS.math_max;
  n_lt := PrimFloat.ltb;
  finite := PrimFloat.is_finite;
  integer_part := JS.integer_part
|}.

(** Exact arithmetic: the rationals.  It has no NaN, no infinity and no
    rounding, so that what holds of it need not hold of the program: it
    says what the formulas of the code compute when nothing is rounded,
    and every property stated of it comes with what the doubles do. *)
#[export] Instance exact : Number Q := {|
  lit q := q;
  n_add := Qplus;
  n_sub := Qminus;
  n_mul := Qmult;
  n_div := Qdiv;
  n_min := Qmin;
  n_max := Qmax;
  n_lt a b := if Qlt_le_dec a b then true else false;
  finite _ := true;
  integer_part q := Some (Z.quot (Qnum q) (Zpos (Qden q)))
|}.

(** ** Data model (types/index.ts) *)

Inductive ExpressionType : Type :=
| neutral | happy | sad | angry | surprised | fear | disgust.

(** An [HTMLImageElement] that is not laid out: [width] and [height] are
    its natural size. *)
Record Image : Type := {
  img_src : string;
  img_width : Z;
  img_height : Z
}.

(** What [drawImage] is given: [HTMLVideoElement | HTMLImageElement].  An
    image whose request failed is [broken]; an image that fired [onload] is
    not.  A video has a current frame or has none yet.  Images and videos
    are taken to be origin-clean, so that drawing them does not bar the
    reading of the pixels of the canvas. *)
Inductive Source : Type :=
| HTMLImageElement (img : Image) (broken : bool)
| HTMLVideoElement (videoWidth videoHeight : Z) (has_frame : bool).

Record TargetFace : Type := {
  tf_id : string;
  tf_name : string;
  tf_imageUrl : string;
  tf_thumbnailUrl : string;
  tf_expressions : ExpressionType -> option string
}.

Section Types.
Context {N : Type}.

Record FaceLandmarks : Type := { lm_x : N; lm_y : N; lm_z : option N }.

Record BoundingBox : Type := { bb_x : N; bb_y : N; bb_width : N; bb_height : N }.

Record FacialExpression : Type := {
  fe_type : ExpressionType;
  fe_confidence : N;
  fe_eyebrows : N;
  fe_eyes : N;
  fe_mouth : N;
  fe_overall : N
}.

Record DetectedFace : Type := {
  df_id : string;
  landmarks : list FaceLandmarks;
  boundingBox : BoundingBox;
  df_confidence : N;
  expression : option FacialExpression
}.

(** [quality] and [blendMode] are strings at run time; the declared types
    admit only ['low' | 'medium' | 'high'] and
    ['normal' | 'overlay' | 'multiply']. *)
Record FaceSwapConfig : Type := {
  quality : string;
  blendMode : string;
  featherAmount : N;
  colorMatch : bool;
  realTimeMode : bool
}.

Record Transform : Type := {
  scaleX : N;
  scaleY : N;
  translateX : N;
  translateY : N
}.

End Types.
Arguments FaceLandmarks N : clear implicits.
Arguments BoundingBox N : clear implicits.
Arguments FacialExpression N : clear implicits.
Arguments DetectedFace N : clear implicits.
Arguments FaceSwapConfig N : clear implicits.
Arguments Transform N : clear implicits.

(** ** The 2D rendering context

    The part of [CanvasRenderingContext2D] the service uses.  A surface is
    the list of the painting operations applied to it since it was last
    cleared, newest first; an operation of the drawing model carries the
    drawing state it was issued under, since that state decides what it
    paints. *)

Module Canvas.

(** What is thrown, or what a promise is rejected with.  The exceptions of
    the canvas are [Error]s whose message is the browser's; an image that
    fails to load rejects with its error event, which is not an [Error]. *)
Inductive Exception : Type :=
| DOMException (name : string)
| TypeError
| Error (message : string)
| ErrorEvent.

Inductive outcome (A : Type) : Type :=
| Ok (a : A)
| Throw (e : Exception).
Arguments Ok {A} a.
Arguments Throw {A} e.

Section Context2D.
Context {N : Type} `{Number N}.

(** A parsed CSS colour; ['rgba(255,255,255,1)'] is
    [{| c_red := 255; c_green := 255; c_blue := 255; c_alpha := lit 1 |}]. *)
Record Rgba : Type := { c_red : Z; c_green : Z; c_blue : Z; c_alpha : N }.

Record Gradient : Type := {
  g_x0 : N; g_y0 : N; g_r0 : N;
  g_x1 : N; g_y1 : N; g_r1 : N;
  g_stops : list (N * Rgba)
}.

Inductive FillStyle : Type :=
| Color (css : string)
| GradientStyle (gradient : Gradient).

Record DrawingState : Type := {
  globalCompositeOperation : string;
  globalAlpha : N;
  fillStyle : FillStyle;
  filter : string;
  imageSmoothingEnabled : bool;
  imageSmoothingQuality : string
}.

Inductive Op : Type :=
| DrawImage (image : Source) (dx dy dw dh : N) (state : DrawingState)
| FillRect (x y w h : N) (state : DrawingState)
| PutImageData (imagedata : ImageData) (dx dy : Z)
with ImageData : Type :=
| Pixels (sx sy sw sh : Z) (content : list Op).

Definition id_width (d : ImageData) : Z := let 'Pixels _ _ sw _ _ := d in sw.
Definition id_height (d : ImageData) : Z := let 'Pixels _ _ _ sh _ := d in sh.

Record Canvas : Type := {
  cv_width : Z;
  cv_height : Z;
  cv_state : DrawingState;
  cv_saved : list DrawingState;
  cv_surface : list Op
}.

Definition default_state : DrawingState := {|
  globalCompositeOperation := "source-over";
  globalAlpha := lit 1;
  fillStyle := Color "#000000";
  filter := "none";
  imageSmoothingEnabled := true;
  imageSmoothingQuality := "low"
|}.

(** [document.createElement('canvas')] and its [getContext('2d')]. *)
Definition new_canvas : Canvas := {|
  cv_width := 300; cv_height := 150;
  cv_state := default_state; cv_saved := []; cv_surface := []
|}.

(** A method of the context: it may throw and it may change the canvas. *)
Definition M (A : Type) : Type := Canvas -> outcome A * Canvas.

Definition ret {A : Type} (a : A) : M A := fun c => (Ok a, c).

Definition throw {A : Type} (e : Exception) : M A := fun c => (Throw e, c).

Definition bind {A B : Type} (m : M A) (k : A -> M B) : M B :=
  fun c => match m c with
           | (Ok a, c') => k a c'
           | (Throw e, c') => (Throw e, c')
           end.

(** The canvas as it is, for reading [canvas.width] and [canvas.height]. *)
Definition canvas_now : M Canvas := fun c => (Ok c, c).

(** [try { body } finally { fin }], for a [fin] that does not throw. *)
Definition try_finally {A : Type} (body : M A) (fin : M unit) : M A :=
  fun c => let '(o, c') := body c in (o, snd (fin c')).

(** [try { body } catch (error) { handler }] *)
Definition try_catch {A : Type} (body : M A) (handler : Exception -> M A) : M A :=
  fun c => match body c with
           | (Ok a, c') => (Ok a, c')
           | (Throw e, c') => handler e c'
           end.

Definition modify (f : DrawingState -> DrawingState) : M unit :=
  fun c => (Ok tt, {| cv_width := cv_width c; cv_height := cv_height c;
                      cv_state := f (cv_state c); cv_saved := cv_saved c;
                      cv_surface := cv_surface c |}).

Definition paint (op : DrawingState -> Op) : M unit :=
  fun c => (Ok tt, {| cv_width := cv_width c; cv_height := cv_height c;
                      cv_state := cv_state c; cv_saved := cv_saved c;
                      cv_surface := op (cv_state c) :: cv_surface c |}).

(** [ctx.save()] and [ctx.restore()] *)
Definition save : M unit :=
  fun c => (Ok tt, {| cv_width := cv_width c; cv_height := cv_height c;
                      cv_state := cv_state c; cv_saved := cv_state c :: cv_saved c;
                      cv_surface := cv_surface c |}).

Definition restore : M unit :=
  fun c => match cv_saved c with
           | [] => (Ok tt, c)
           | s :: rest =>
               (Ok tt, {| cv_width := cv_width c; cv_height := cv_height c;
                          cv_state := s; cv_saved := rest;
                          cv_surface := cv_surface c |})
           end.

(** Assigning [canvas.width] or [canvas.height] clears the bitmap and
    resets the context to its default state. *)
Definition set_canvas_width (w : Z) : M unit :=
  fun c => (Ok tt, {| cv_width := w; cv_height := cv_height c;
                      cv_state := default_state; cv_saved := []; cv_surface := [] |}).

Definition set_canvas_height (h : Z) : M unit :=
  fun c => (Ok tt, {| cv_width := cv_width c; cv_height := h;
                      cv_state := default_state; cv_saved := []; cv_surface := [] |}).

Definition composite_operations : list string :=
  [ "source-over"; "source-in"; "source-out"; "source-atop";
    "destination-over"; "destination-in"; "destination-out"; "destination-atop";
    "lighter"; "copy"; "xor"; "multiply"; "screen"; "overlay"; "darken";
    "lighten"; "color-dodge"; "color-burn"; "hard-light"; "soft-light";
    "difference"; "exclusion"; "hue"; "saturation"; "color"; "luminosity" ]%string.

(** [ctx.globalCompositeOperation = v]: a value that is not the name of an
    operation is ignored; a built-in object converts to a string that is
    not such a name. *)
Definition set_globalCompositeOperation (v : JS.value string) : M unit :=
  match v with
  | JS.Val s =>
      if decide (s ∈ composite_operations)
      then modify (fun st => {| globalCompositeOperation := s;
                                globalAlpha := globalAlpha st;
                                fillStyle := fillStyle st;
                                filter := filter st;
                                imageSmoothingEnabled := imageSmoothingEnabled st;
                                imageSmoothingQuality := imageSmoothingQuality st |})
      else ret tt
  | JS.Builtin _ => ret tt
  end.

Definition in_unit_range (a : N) : bool :=
  finite a && negb (a <? lit 0)%num && negb (lit 1 <? a)%num.

(** [ctx.globalAlpha = v]: a value that is NaN, infinite or outside
    [0, 1] is ignored; a built-in object converts to NaN. *)
Definition set_globalAlpha (v : JS.value N) : M unit :=
  match v with
  | JS.Val a =>
      if in_unit_range a
      then modify (fun st => {| globalCompositeOperation := globalCompositeOperation st;
                                globalAlpha := a;
                                fillStyle := fillStyle st;
                                filter := filter st;
                                imageSmoothingEnabled := imageSmoothingEnabled st;
                                imageSmoothingQuality := imageSmoothingQuality st |})
      else ret tt
  | JS.Builtin _ => ret tt
  end.

Definition set_fillStyle (s : FillStyle) : M unit :=
  modify (fun st => {| globalCompositeOperation := globalCompositeOperation st;
                       globalAlpha := globalAlpha st;
                       fillStyle := s;
                       filter := filter st;
                       imageSmoothingEnabled := imageSmoothingEnabled st;
                       imageSmoothingQuality := imageSmoothingQuality st |}).

(** [ctx.filter = s], for a string [s] that parses as a filter list. *)
Definition set_filter (s : string) : M unit :=
  modify (fun st => {| globalCompositeOperation := globalCompositeOperation st;
                       globalAlpha := globalAlpha st;
                       fillStyle := fillStyle st;
                       filter := s;
                       imageSmoothingEnabled := imageSmoothingEnabled st;
                       imageSmoothingQuality := imageSmoothingQuality st |}).

Definition set_imageSmoothing (enabled : bool) (q : string) : M unit :=
  modify (fun st => {| globalCompositeOperation := globalCompositeOperation st;
                       globalAlpha := globalAlpha st;
                       fillStyle := fillStyle st;
                       filter := filter st;
                       imageSmoothingEnabled := enabled;
                       imageSmoothingQuality := q |}).

Definition is_zero (a : N) : bool :=
  finite a && negb (a <? lit 0)%num && negb (lit 0 <? a)%num.

(** [ctx.createRadialGradient(x0, y0, r0, x1, y1, r1)]: a [TypeError] on
    an argument that is not finite, an [IndexSizeError] on a negative
    radius. *)
Definition createRadialGradient (x0 y0 r0 x1 y1 r1 : N) : M Gradient :=
  if negb (forallb finite [x0; y0; r0; x1; y1; r1]) then throw TypeError
  else if ((r0 <? lit 0)%num || (r1 <? lit 0)%num)%bool
       then throw (DOMException "IndexSizeError")
  else ret {| g_x0 := x0; g_y0 := y0; g_r0 := r0;
              g_x1 := x1; g_y1 := y1; g_r1 := r1; g_stops := [] |}.

(** [gradient.addColorStop(offset, color)], for an offset in [0, 1] and a
    colour that parses. *)
Definition addColorStop (offset : N) (color : Rgba) (g : Gradient) : Gradient :=
  {| g_x0 := g_x0 g; g_y0 := g_y0 g; g_r0 := g_r0 g;
     g_x1 := g_x1 g; g_y1 := g_y1 g; g_r1 := g_r1 g;
     g_stops := g_stops g ++ [(offset, color)] |}.

(** [ctx.fillRect(x, y, w, h)]: nothing on an argument that is not finite
    or on a zero width or height. *)
Definition fillRect (x y w h : N) : M unit :=
  if negb (forallb finite [x; y; w; h]) then ret tt
  else if (is_zero w || is_zero h)%bool then ret tt
  else paint (FillRect x y w h).

Definition source_width (s : Source) : Z :=
  match s with
  | HTMLImageElement img _ => img_width img
  | HTMLVideoElement w _ _ => w
  end.

Definition source_height (s : Source) : Z :=
  match s with
  | HTMLImageElement img _ => img_height img
  | HTMLVideoElement _ h _ => h
  end.

(** The usability of an image argument: an exception for a broken image,
    [false] (bad) for an image of no width or height and for a video
    without a current frame. *)
Definition usable (s : Source) : outcome bool :=
  match s with
  | HTMLImageElement img broken =>
      if broken then Throw (DOMException "InvalidStateError")
      else Ok (negb ((img_width img =? 0) || (img_height img =? 0)))
  | HTMLVideoElement _ _ has_frame => Ok has_frame
  end.

(** [ctx.drawImage(image, dx, dy, dw, dh)]: nothing on an argument that is
    not finite, on a bad image and on an empty source rectangle. *)
Definition drawImage (image : Source) (dx dy dw dh : N) : M unit :=
  if negb (forallb finite [dx; dy; dw; dh]) then ret tt
  else match usable image with
       | Throw e => throw e
       | Ok false => ret tt
       | Ok true =>
           if ((source_width image =? 0) || (source_height image =? 0))%bool then ret tt
           else paint (DrawImage image dx dy dw dh)
       end.

(** [ctx.drawImage(image, dx, dy)]: the destination has the size of the
    image. *)
Definition drawImage_at (image : Source) (dx dy : N) : M unit :=
  drawImage image dx dy (lit (inject_Z (source_width image)))
    (lit (inject_Z (source_height image))).

(** The conversion of an argument declared [[EnforceRange] long]. *)
Definition enforce_long (a : N) : outcome Z :=
  match integer_part a with
  | Some z => if ((- 2147483648 <=? z) && (z <=? 2147483647))%bool then Ok z
              else Throw TypeError
  | None => Throw TypeError
  end.

(** [ctx.getImageData(sx, sy, sw, sh)]: an [IndexSizeError] on a zero
    width or height; the pixels are those of the surface as it is now.  A
    negative extent names the rectangle by its opposite corner. *)
Definition getImageData (sx sy sw sh : N) : M ImageData :=
  fun c =>
    match enforce_long sx, enforce_long sy, enforce_long sw, enforce_long sh with
    | Ok x, Ok y, Ok w, Ok h =>
        if ((w =? 0) || (h =? 0))%bool then (Throw (DOMException "IndexSizeError"), c)
        else (Ok (Pixels (Z.min x (x + w)) (Z.min y (y + h)) (Z.abs w) (Z.abs h)
                    (cv_surface c)), c)
    | Throw e, _, _, _ | _, Throw e, _, _ | _, _, Throw e, _ | _, _, _, Throw e =>
        (Throw e, c)
    end.

(** [ctx.putImageData(imagedata, dx, dy)]: the pixels are copied as they
    are; no attribute of the drawing state takes part. *)
Definition putImageData (imagedata : ImageData) (dx dy : N) : M unit :=
  match enforce_long dx, enforce_long dy with
  | Ok x, Ok y =>
      fun c => (Ok tt, {| cv_width := cv_width c; cv_height := cv_height c;
                          cv_state := cv_state c; cv_saved := cv_saved c;
                          cv_surface := PutImageData imagedata x y :: cv_surface c |})
  | Throw e, _ | _, Throw e => throw e
  end.

(** *** What a radial gradient paints

    For a gradient whose two circles have a common centre: the alpha it
    paints at distance [d] from that centre.  Two equal circles paint
    nothing.  Otherwise the point lies on the circle of parameter
    [(d - r0) / (r1 - r0)] and has the colour of the stops at that offset:
    the colour of the first stop before it, of the last stop after it, and
    the linear interpolation of its two neighbours in between. *)





(** *** The pixels of a surface

    The surface is an unbounded plane of which the canvas shows a window.
    What an operation of the drawing model paints over a bitmap is left to
    [drawing_model]; [putImageData] copies the pixels it is given. *)

Definition Pixel : Type := (Z * Z * Z * Z)%type.
Definition Bitmap : Type := Z -> Z -> Pixel.
Definition transparent : Bitmap := fun _ _ => (0, 0, 0, 0).

Section Pixels.
Variable drawing_model : Op -> Bitmap -> Bitmap.

Fixpoint after_op (op : Op) (under : Bitmap) {struct op} : Bitmap :=
  match op with
  | PutImageData (Pixels sx sy sw sh content) dx dy =>
      let source :=
        (fix shown_list (ops : list Op) : Bitmap :=
           match ops with
           | [] => transparent
           | o :: older => after_op o (shown_list older)
           end) content in
      fun px py =>
        if ((dx <=? px) && (px <? dx + sw) && (dy <=? py) && (py <? dy + sh))%bool
        then source (sx + (px - dx)) (sy + (py - dy))
        else under px py
  | _ => drawing_model op under
  end.

Definition shown (surface : list Op) : Bitmap :=
  fold_right after_op transparent surface.

End Pixels.

End Context2D.

Arguments Rgba N : clear implicits.
Arguments Gradient N : clear implicits.
Arguments FillStyle N : clear implicits.
Arguments DrawingState N : clear implicits.
Arguments Op N : clear implicits.
Arguments ImageData N : clear implicits.
Arguments Canvas N : clear implicits.
Arguments M N A : clear implicits.

End Canvas.

#[export] Instance canvas_ret {N : Type} : MRet (Canvas.M N) := @Canvas.ret N.
#[export] Instance canvas_bind {N : Type} : MBind (Canvas.M N) :=
  fun A B k m => Canvas.bind m k.

(** ** The face swap service (canvas pipeline) *)

Module Service.
Import Canvas.

Section Service.
Context {N : Type} `{Number N}.

(** [calculateFaceTransform(boundingBox, targetImage, _landmarks?)] *)
Definition calculateFaceTransform (boundingBox : BoundingBox N) (targetImage : Image)
    (_landmarks : option (list (FaceLandmarks N))) : Transform N :=
  let width := lit (inject_Z (img_width targetImage)) in
  let height := lit (inject_Z (img_height targetImage)) in
  let scaleX := (bb_width boundingBox / width)%num in
  let scaleY := (bb_height boundingBox / height)%num in
  let uniformScale := n_min scaleX scaleY in
  let finalScaleX := (uniformScale + (scaleX - uniformScale) * lit 0.3)%num in
  let finalScaleY := (uniformScale + (scaleY - uniformScale) * lit 0.3)%num in
  let scaledWidth := (width * finalScaleX)%num in
  let scaledHeight := (height * finalScaleY)%num in
  let translateX := (bb_x boundingBox - (scaledWidth - bb_width boundingBox) / lit 2)%num in
  let translateY := (bb_y boundingBox - (scaledHeight - bb_height boundingBox) / lit 2)%num in
  {| scaleX := finalScaleX; scaleY := finalScaleY;
     translateX := translateX; translateY := translateY |}.

Definition white (alpha : N) : Rgba N :=
  {| c_red := 255; c_green := 255; c_blue := 255; c_alpha := alpha |}.

(** The gradient [applyFeathering] builds, when its creation does not
    throw. *)
Definition feather_gradient (boundingBox : BoundingBox N) (amount : N) : M N (Gradient N) :=
  let centerX := (bb_x boundingBox + bb_width boundingBox / lit 2)%num in
  let centerY := (bb_y boundingBox + bb_height boundingBox / lit 2)%num in
  let radius := (n_max (bb_width boundingBox) (bb_height boundingBox) / lit 2)%num in
  gradient ← createRadialGradient centerX centerY (radius * (lit 1 - amount))%num
                centerX centerY radius;
  mret (addColorStop (lit 1) (white (lit 0)) (addColorStop (lit 0) (white (lit 1)) gradient)).

(** [applyFeathering(boundingBox, amount)] *)
Definition applyFeathering (boundingBox : BoundingBox N) (amount : N) : M N unit :=
  let radius := (n_max (bb_width boundingBox) (bb_height boundingBox) / lit 2)%num in
  gradient ← feather_gradient boundingBox amount;
  set_globalCompositeOperation (JS.Val "destination-in");;
  set_fillStyle (GradientStyle gradient);;
  fillRect (bb_x boundingBox - radius)%num (bb_y boundingBox - radius)%num
           (bb_width boundingBox + radius * lit 2)%num
           (bb_height boundingBox + radius * lit 2)%num;;
  set_globalCompositeOperation (JS.Val "source-over").

Definition blendModes : gmap string string :=
  {[ "normal" := "source-over"; "overlay" := "overlay"; "multiply" := "multiply" ]}.

Definition truthy_string (s : string) : bool := negb (String.eqb s EmptyString).

(** [getBlendMode(mode)]: [blendModes[mode] || 'source-over'] *)
Definition getBlendMode (mode : string) : JS.value string :=
  JS.or_default truthy_string (JS.get blendModes mode) "source-over".

Definition opacityMap : gmap string N :=
  {[ "low" := lit 0.8; "medium" := lit 0.9; "high" := lit 0.95 ]}.

(** A number is falsy when it is zero or NaN. *)
Definition truthy_number (a : N) : bool := ((a <? lit 0)%num || (lit 0 <? a)%num)%bool.

(** [getBlendOpacity(quality)]: [opacityMap[quality] || 0.9] *)
Definition getBlendOpacity (quality : string) : JS.value N :=
  JS.or_default truthy_number (JS.get opacityMap quality) (lit 0.9).

(** [applyColorMatching(boundingBox)]; the [catch] only logs. *)
Definition applyColorMatching (boundingBox : BoundingBox N) : M N unit :=
  try_catch
    (imageData ← getImageData (bb_x boundingBox) (bb_y boundingBox)
                   (bb_width boundingBox) (bb_height boundingBox);
     set_filter "contrast(1.05) brightness(1.02) saturate(0.95)";;
     putImageData imageData (bb_x boundingBox) (bb_y boundingBox);;
     set_filter "none")
    (fun _ => mret tt).

(** The [try] block of [performAdvancedSwap]. *)
Definition swap_body (detectedFace : DetectedFace N) (targetImage : Image)
    (config : FaceSwapConfig N) : M N unit :=
  let transform :=
    calculateFaceTransform (boundingBox detectedFace) targetImage
      (Some (landmarks detectedFace)) in
  (if (lit 0 <? featherAmount config)%num
   then applyFeathering (boundingBox detectedFace) (featherAmount config)
   else mret tt);;
  set_globalCompositeOperation (getBlendMode (blendMode config));;
  set_globalAlpha (getBlendOpacity (quality config));;
  drawImage (HTMLImageElement targetImage false)
    (translateX transform) (translateY transform)
    (scaleX transform * lit (inject_Z (img_width targetImage)))%num
    (scaleY transform * lit (inject_Z (img_height targetImage)))%num;;
  set_globalCompositeOperation (JS.Val "source-over");;
  set_globalAlpha (JS.Val (lit 1));;
  if colorMatch config then applyColorMatching (boundingBox detectedFace) else mret tt.

(** [performAdvancedSwap(detectedFace, targetImage, config)] *)
Definition performAdvancedSwap (detectedFace : DetectedFace N) (targetImage : Image)
    (config : FaceSwapConfig N) : M N unit :=
  save;;
  try_finally (swap_body detectedFace targetImage config) restore.

(** [getTargetImageForExpression(targetFace, expression)]; an empty string
    is falsy. *)
Definition getTargetImageForExpression (targetFace : TargetFace)
    (expression : ExpressionType) : string :=
  let truthy o := match o with Some s => truthy_string s | None => false end in
  if truthy (tf_expressions targetFace expression)
  then default EmptyString (tf_expressions targetFace expression)
  else if truthy (tf_expressions targetFace neutral)
  then default EmptyString (tf_expressions targetFace neutral)
  else tf_imageUrl targetFace.

(** What the service awaits from outside: [tf.ready()], which resolves or
    is rejected, and the loading of an image by its URL ([None] when the
    image fires [onerror]). *)
Record Environment : Type := {
  tf_ready : outcome unit;
  loadImage : string -> option Image
}.

Record State : Type := {
  canvas : Canvas N;
  isInitialized : bool
}.

(** [new FaceSwapService()] *)
Definition new_service : State := {| canvas := new_canvas; isInitialized := false |}.

(** [SwapResult]; [processingTime], a difference of two readings of the
    clock, is left out. *)
Record SwapResult : Type := {
  success : bool;
  imageData : option (ImageData N);
  error : option string
}.

(** [setupCanvasProcessing()] *)
Definition setupCanvasProcessing : M N unit := set_imageSmoothing true "high".

(** [initialize()], which rethrows what [tf.ready()] is rejected with. *)
Definition initialize (env : Environment) (s : State) : outcome unit * State :=
  if isInitialized s then (Ok tt, s)
  else match tf_ready env with
       | Ok _ =>
           (Ok tt, {| canvas := snd (setupCanvasProcessing (canvas s));
                      isInitialized := true |})
       | Throw e => (Throw e, s)
       end.

(** [error instanceof Error ? error.message : 'Face swap failed']; the
    name of an exception of the browser stands for its message. *)
Definition error_message (e : Exception) : string :=
  match e with
  | DOMException name => name
  | TypeError => "TypeError"
  | Error message => message
  | ErrorEvent => "Face swap failed"
  end.

(** The statements of [swapFace] that follow the loading of the target
    image, up to the reading of the result. *)
Definition compose (sourceImage : Source) (detectedFace : DetectedFace N)
    (targetImage : Image) (config : FaceSwapConfig N) : M N (ImageData N) :=
  set_canvas_width (source_width sourceImage);;
  set_canvas_height (source_height sourceImage);;
  drawImage_at sourceImage (lit 0) (lit 0);;
  performAdvancedSwap detectedFace targetImage config;;
  c ← canvas_now;
  getImageData (lit 0) (lit 0) (lit (inject_Z (cv_width c))) (lit (inject_Z (cv_height c))).

Definition failure (e : Exception) : SwapResult :=
  {| success := false; imageData := None; error := Some (error_message e) |}.

(** [swapFace(sourceImage, detectedFace, targetFace, config)], run from its
    first statement to its [return] without another call on the same
    service in between. *)
Definition swapFace (env : Environment) (sourceImage : Source)
    (detectedFace : DetectedFace N) (targetFace : TargetFace)
    (config : FaceSwapConfig N) (s : State) : SwapResult * State :=
  match initialize env s with
  | (Throw e, s1) => (failure e, s1)
  | (Ok _, s1) =>
      let expression := match expression detectedFace with
                        | Some e => fe_type e
                        | None => neutral
                        end in
      let targetImageUrl := getTargetImageForExpression targetFace expression in
      match loadImage env targetImageUrl with
      | None => (failure ErrorEvent, s1)
      | Some targetImage =>
          match compose sourceImage detectedFace targetImage config (canvas s1) with
          | (Ok imageData, c) =>
              ({| success := true; imageData := Some imageData; error := None |},
               {| canvas := c; isInitialized := isInitialized s1 |})
          | (Throw e, c) =>
              (failure e, {| canvas := c; isInitialized := isInitialized s1 |})
          end
      end
  end.

(** One call of [swapFace] with what it is given and what it awaits. *)
Record Call : Type := {
  call_env : Environment;
  call_source : Source;
  call_face : DetectedFace N;
  call_target : TargetFace;
  call_config : FaceSwapConfig N
}.

Definition call (k : Call) (s : State) : SwapResult * State :=
  swapFace (call_env k) (call_source k) (call_face k) (call_target k) (call_config k) s.

(** The service after a sequence of calls, oldest first. *)
Definition after_calls (calls : list Call) (s : State) : State :=
  fold_left (fun s k => snd (call k s)) calls s.

(** The operations a method adds to the surface, newest first. *)
Definition issued {A : Type} (m : M N A) (c : Canvas N) : list (Op N) :=
  take (length (cv_surface (snd (m c))) - length (cv_surface c)) (cv_surface (snd (m c))).

Definition is_mask (op : Op N) : bool :=
  match op with
  | FillRect _ _ _ _ st =>
      String.eqb (globalCompositeOperation st) "destination-in"
      && match fillStyle st with GradientStyle _ => true | Color _ => false end
  | _ => false
  end.

Definition is_put (op : Op N) : bool :=
  match op with PutImageData _ _ _ => true | _ => false end.

Definition is_overlay (targetImage : Image) (op : Op N) : bool :=
  match op with
  | DrawImage (HTMLImageElement img false) _ _ _ _ _ =>
      String.eqb (img_src img) (img_src targetImage)
      && (img_width img =? img_width targetImage)
      && (img_height img =? img_height targetImage)
  | _ => false
  end.


Definition is_ok {A : Type} (o : outcome A) : bool :=
  match o with Ok _ => true | Throw _ => false end.

(** [getCanvas()] *)
Definition getCanvas (s : State) : Canvas N := canvas s.

(** [isReady()] *)
Definition isReady (s : State) : bool := isInitialized s.

(** [dispose()]; [swapModel], which nothing assigns, is [null]. *)
Definition dispose (s : State) : State :=
  {| canvas := canvas s; isInitialized := false |}.

End Service.

Arguments State N : clear implicits.
Arguments SwapResult N : clear implicits.
Arguments Call N : clear implicits.

End Service.

(** * Vocabulary of the properties *)

Section Vocabulary.
Import Canvas Service.
Context {N : Type} `{Number N}.

(** A method keeps the frame when it leaves the size of the canvas and
    the stack of saved states alone and only adds to the surface. *)
Definition keeps_frame {A : Type} (m : M N A) : Prop :=
  forall c, cv_width (snd (m c)) = cv_width c /\
            cv_height (snd (m c)) = cv_height c /\
            cv_saved (snd (m c)) = cv_saved c /\
            exists new, cv_surface (snd (m c)) = new ++ cv_surface c.

(** What a method adds to the surface satisfies [R]. *)
Definition issues {A : Type} (m : M N A) (R : list (Op N) -> Prop) : Prop :=
  forall c, exists new, cv_surface (snd (m c)) = new ++ cv_surface c /\ R new.




Definition blend_defaults (c : Canvas N) : Prop :=
  globalCompositeOperation (cv_state c) = "source-over" /\
  globalAlpha (cv_state c) = lit 1 /\
  cv_saved c = [].

(** The source image can be drawn at the origin without an exception. *)
Definition source_draws (source : Source) : bool :=
  is_ok (fst (drawImage_at (N := N) source (lit 0) (lit 0) new_canvas)).

(** The gradient of the mask can be created, when a mask is asked for. *)
Definition gradient_builds (region : BoundingBox N) (config : FaceSwapConfig N) : bool :=
  negb (lit 0 <? featherAmount config)%num
  || is_ok (fst (feather_gradient region (featherAmount config) new_canvas)).

(** The pixels of a canvas of the size of the source can be read. *)
Definition pixels_readable (source : Source) : bool :=
  is_ok (fst (getImageData (N := N) (lit 0) (lit 0)
                (lit (inject_Z (source_width source)))
                (lit (inject_Z (source_height source))) new_canvas)).

Definition initializes (env : Environment) (s : State N) : bool :=
  isInitialized s || is_ok (tf_ready env).

Definition target_url (target : TargetFace) (face : DetectedFace N) : string :=
  getTargetImageForExpression target
    (match expression face with Some e => fe_type e | None => neutral end).

(** The extent given to [getImageData], as the integer it is converted
    to. *)
Definition extent (a : N) : Z :=
  match enforce_long a with Ok z => z | Throw _ => 0 end.

End Vocabulary.

(** The mask in exact arithmetic. *)

Section ExactMask.
Import Canvas Service.
Local Open Scope Q_scope.

(** The radii of the mask. *)
Definition outer_radius (region : BoundingBox Q) : Q :=
  Qmax (bb_width region) (bb_height region) / 2.

Definition inner_radius (region : BoundingBox Q) (amount : Q) : Q :=
  outer_radius region * (1 - amount).

Definition mask (region : BoundingBox Q) (amount : Q) : Gradient Q :=
  {| g_x0 := bb_x region + bb_width region / 2;
     g_y0 := bb_y region + bb_height region / 2;
     g_r0 := inner_radius region amount;
     g_x1 := bb_x region + bb_width region / 2;
     g_y1 := bb_y region + bb_height region / 2;
     g_r1 := outer_radius region;
     g_stops := [(0, white 1); (1, white 0)] |}.

Definition region_100 : BoundingBox Q :=
  {| bb_x := 50; bb_y := 50; bb_width := 100; bb_height := 100 |}.


End ExactMask.

(** Inputs of runs of the program. *)

Module Example.
Import Canvas Service.

Definition background : Source :=
  HTMLImageElement {| img_src := "frame.png"; img_width := 640; img_height := 480 |} false.

Definition overlay : Image :=
  {| img_src := "einstein.jpg"; img_width := 200; img_height := 200 |}.

Definition empty_overlay : Image :=
  {| img_src := "empty.png"; img_width := 0; img_height := 0 |}.

Definition target : TargetFace :=
  {| tf_id := "einstein"; tf_name := "Einstein"; tf_imageUrl := "einstein.jpg";
     tf_thumbnailUrl := "einstein_thumb.jpg"; tf_expressions := fun _ => None |}.

Definition env (img : Image) : Environment :=
  {| tf_ready := Ok tt; loadImage := fun _ => Some img |}.


Definition region (x y w h : float) : BoundingBox float :=
  {| bb_x := x; bb_y := y; bb_width := w; bb_height := h |}.

Definition face (x y w h : float) : DetectedFace float :=
  {| df_id := "face-1"; landmarks := [];
     boundingBox := {| bb_x := x; bb_y := y; bb_width := w; bb_height := h |};
     df_confidence := 1%float; expression := None |}.

Definition config (q mode : string) (feather : float) (cm : bool) : FaceSwapConfig float :=
  {| quality := q; blendMode := mode; featherAmount := feather;
     colorMatch := cm; realTimeMode := false |}.

(** The canvas with the background drawn, as [swapFace] has it when it
    calls [performAdvancedSwap]. *)
Definition stage : Canvas float :=
  snd ((set_canvas_width 640;; set_canvas_height 480;;
        drawImage_at background 0%float 0%float) new_canvas).

(** The opacity an operation of the drawing model was issued under. *)
Definition alpha_of (op : Op float) : option float :=
  match op with
  | DrawImage _ _ _ _ _ st | FillRect _ _ _ _ st => Some (globalAlpha st)
  | PutImageData _ _ _ => None
  end.

End Example.




(** ** The face database (data/faceDatabase.ts) *)

Module Database.

Record Metadata : Type := {
  created : string;
  md_quality : string;
  resolution : string;
  tags : list string
}.

(** [FaceData]; the optional [landmarks] and [expressions], which no entry
    of the database has and no code reads, are left out. *)
Record FaceData : Type := {
  fd_id : string;
  fd_name : string;
  description : string;
  category : string;
  thumbnailPath : string;
  imagePath : string;
  metadata : Metadata
}.

Definition faceDatabase : list FaceData :=
  [ {| fd_id := "einstein";
       fd_name := "Albert Einstein";
       description := "Renowned physicist and Nobel Prize winner";
       category := "historical";
       thumbnailPath := "/faces/einstein/thumb.svg";
       imagePath := "/faces/einstein/thumb.svg";
       metadata := {| created := "2024-01-01"; md_quality := "high";
                      resolution := "512x512";
                      tags := ["scientist"; "genius"; "physics"; "mustache"] |} |};
    {| fd_id := "mona-lisa";
       fd_name := "Mona Lisa";
       description := "Leonardo da Vinci's masterpiece";
       category := "historical";
       thumbnailPath := "/faces/mona-lisa/thumb.svg";
       imagePath := "/faces/mona-lisa/thumb.svg";
       metadata := {| created := "2024-01-01"; md_quality := "high";
                      resolution := "512x512";
                      tags := ["art"; "renaissance"; "mysterious"; "classic"] |} |};
    {| fd_id := "obama";
       fd_name := "Barack Obama";
       description := "44th President of the United States";
       category := "celebrity";
       thumbnailPath := "/faces/obama/thumb.svg";
       imagePath := "/faces/obama/thumb.svg";
       metadata := {| created := "2024-01-01"; md_quality := "high";
                      resolution := "512x512";
                      tags := ["president"; "politician"; "leader"; "charismatic"] |} |} ].

(** [faceDatabase.find(face => face.id === id)] *)
Definition getFaceById (id : string) : option FaceData :=
  List.find (fun face => bool_decide (fd_id face = id)) faceDatabase.

End Database.

(** ** The demo service: its life cycle and its swap of a canvas *)

Module Demo.
Import Canvas Database.

(** A [tf.LayersModel]. *)
Inductive LayersModel : Type := layers_model.

Record State : Type := {
  model : option LayersModel;
  isInitialized : bool
}.

(** [new FaceSwapService()] *)
Definition new_service : State := {| model := None; isInitialized := false |}.

(** [initialize()]: the timer it awaits resolves, and nothing in its [try]
    throws. *)
Definition initialize (s : State) : State :=
  {| model := model s; isInitialized := true |}.

(** [isReady()] *)
Definition isReady (s : State) : bool :=
  isInitialized s && bool_decide (model s <> None).

(** [dispose()] *)
Definition dispose (s : State) : State :=
  {| model := match model s with Some _ => None | None => model s end;
     isInitialized := false |}.

(** [SwapResult]; [processingTime], a reading of the clock, is left out. *)
Record SwapResult : Type := {
  success : bool;
  imageData : option Tint.ImageData;
  error : option string
}.

Definition failure (e : Exception) : SwapResult :=
  {| success := false; imageData := None; error := Some (Service.error_message e) |}.

(** [swapFaces(sourceFace, targetFace)].  [performSwap] paints a gradient
    and paths on a canvas of its own and reads it back; it is what the call
    is given here. *)
Definition swapFaces (performSwap : FaceData -> FaceData -> outcome Tint.ImageData)
    (sourceFace targetFace : FaceData) (s : State) : outcome SwapResult :=
  if (negb (isInitialized s) || negb (bool_decide (model s <> None)))%bool
  then Throw (Error "Face swap service not initialized")
  else Ok (match performSwap sourceFace targetFace with
           | Ok swappedImageData =>
               {| success := true; imageData := Some swappedImageData; error := None |}
           | Throw e => failure e
           end).

(** The canvas [swapFace] is given: its size, whether [getContext('2d')]
    gives a context (it gives [null] on a canvas that has a context of
    another kind), whether its bitmap is origin-clean, and the RGBA bytes
    [getImageData] reads from its bitmap.  The bitmap holds premultiplied
    colours, so the bytes that [putImageData] is given are not what
    [getImageData] reads afterwards unless the pixel is opaque:
    [hc_read_back] is the conversion of the bitmap of this canvas, from the
    bytes that are put to the bytes that are read afterwards. *)
Record HTMLCanvasElement : Type := {
  hc_width : Z;
  hc_height : Z;
  hc_has_2d : bool;
  hc_origin_clean : bool;
  hc_pixels : list Z;
  hc_read_back : list Z -> list Z
}.

(** [ctx.getImageData(0, 0, canvas.width, canvas.height)] *)
Definition getImageData_all (c : HTMLCanvasElement) : outcome Tint.ImageData :=
  if ((hc_width c =? 0) || (hc_height c =? 0))%bool
  then Throw (DOMException "IndexSizeError")
  else if negb (hc_origin_clean c) then Throw (DOMException "SecurityError")
  else Ok {| Tint.width := hc_width c; Tint.height := hc_height c;
             Tint.data := hc_pixels c |}.

(** [ctx.putImageData(imageData, 0, 0)], for an [imageData] of the size of
    the canvas: what [getImageData] reads afterwards is what the bitmap
    makes of the bytes it is given. *)
Definition putImageData_all (imageData : Tint.ImageData) (c : HTMLCanvasElement)
    : HTMLCanvasElement :=
  {| hc_width := hc_width c; hc_height := hc_height c; hc_has_2d := hc_has_2d c;
     hc_origin_clean := hc_origin_clean c;
     hc_pixels := hc_read_back c (Tint.data imageData);
     hc_read_back := hc_read_back c |}.

(** [swapFace(sourceCanvas, _detectedFace, targetFace, _config)]: what it
    throws or returns, and the canvas afterwards.  The [ImageData] it
    returns is the object it has tinted in place and given to
    [putImageData]. *)
Definition swapFace {N : Type} (sourceCanvas : HTMLCanvasElement)
    (_detectedFace : DetectedFace N) (targetFace : TargetFace)
    (_config : FaceSwapConfig N) (s : State)
    : outcome (SwapResult * HTMLCanvasElement) :=
  if negb (isInitialized s) then Throw (Error "Face swap service not initialized")
  else Ok (if negb (hc_has_2d sourceCanvas)
           then (failure (Error "Cannot get canvas context"), sourceCanvas)
           else match getImageData_all sourceCanvas with
                | Throw e => (failure e, sourceCanvas)
                | Ok imageData =>
                    let imageData := Tint.applyFaceSwapEffect imageData (tf_id targetFace) in
                    ({| success := true; imageData := Some imageData; error := None |},
                     putImageData_all imageData sourceCanvas)
                end).

(** A call of a method of the service. *)
Inductive Method : Type :=
| Initialize
| Dispose
| SwapFaces (sourceFace targetFace : FaceData)
| SwapFace (sourceCanvas : HTMLCanvasElement) (targetFace : TargetFace).

(** The service after a call; the two swaps leave it as it is. *)
Definition after_call (m : Method) (s : State) : State :=
  match m with
  | Initialize => initialize s
  | Dispose => dispose s
  | SwapFaces _ _ | SwapFace _ _ => s
  end.

Definition after_calls (calls : list Method) (s : State) : State :=
  fold_left (fun s m => after_call m s) calls s.

End Demo.

(** ** The face detection service (demo mode) *)

Module Detection.
Import Canvas.

Section Detection.
Context {N : Type} `{Number N}.

(** What the detector takes from its environment: [Math.cos], [Math.sin],
    [Math.PI], the value of the [k]-th call of [Math.random] in a run of
    [generateMockLandmarks], and [Date.now()]. *)
Record Environment : Type := {
  math_cos : N -> N;
  math_sin : N -> N;
  math_pi : N;
  math_random : nat -> N;
  date_now : Z
}.

Record State : Type := { isInitialized : bool }.

Definition new_service : State := {| isInitialized := false |}.

(** [initialize()], which rethrows what [tf.ready()] is rejected with. *)
Definition initialize (tf_ready : outcome unit) (s : State) : outcome unit * State :=
  if isInitialized s then (Ok tt, s)
  else match tf_ready with
       | Ok _ => (Ok tt, {| isInitialized := true |})
       | Throw e => (Throw e, s)
       end.

(** The landmark pushed by the iteration [i] of the loop of
    [generateMockLandmarks]. *)
Definition mock_landmark (env : Environment) (width height : N) (i : nat)
    : FaceLandmarks N :=
  let centerX := (width * lit 0.5)%num in
  let centerY := (height * lit 0.5)%num in
  let faceWidth := (width * lit 0.3)%num in
  let faceHeight := (height * lit 0.4)%num in
  let angle := (lit (inject_Z (Z.of_nat i)) / lit 68 * math_pi env * lit 2)%num in
  let x := (centerX + math_cos env angle * (faceWidth / lit 2)
                      * (lit 0.8 + math_random env (2 * i) * lit 0.4))%num in
  let y := (centerY + math_sin env angle * (faceHeight / lit 2)
                      * (lit 0.8 + math_random env (2 * i + 1) * lit 0.4))%num in
  {| lm_x := n_max (lit 0) (n_min width x);
     lm_y := n_max (lit 0) (n_min height y);
     lm_z := Some (lit 0) |}.

(** [generateMockLandmarks(width, height)] *)
Definition generateMockLandmarks (env : Environment) (width height : N)
    : list (FaceLandmarks N) :=
  map (mock_landmark env width height) (seq 0 68).

(** [detectFaces(imageElement)] *)
Definition detectFaces (env : Environment) (imageElement : Source) (s : State)
    : outcome (list (DetectedFace N)) :=
  if negb (isInitialized s) then Throw (Error "Face detection service not initialized")
  else
    let width := lit (inject_Z (source_width imageElement)) in
    let height := lit (inject_Z (source_height imageElement)) in
    Ok [ {| df_id := "demo_face_" +:+ pretty (date_now env);
            landmarks := generateMockLandmarks env width height;
            boundingBox := {| bb_x := (width * lit 0.25)%num;
                              bb_y := (height * lit 0.25)%num;
                              bb_width := (width * lit 0.5)%num;
                              bb_height := (height * lit 0.5)%num |};
            df_confidence := lit 0.95;
            expression := Some {| fe_type := neutral;
                                  fe_confidence := lit 0.8;
                                  fe_eyebrows := lit 0.2;
                                  fe_eyes := lit 0.5;
                                  fe_mouth := lit 0.3;
                                  fe_overall := lit 0.8 |} |} ].

(** [isReady()] *)
Definition isReady (s : State) : bool := isInitialized s.

End Detection.

Arguments Environment N : clear implicits.

End Detection.

(** ** The hook (hooks/useFaceSwap.ts): matching a detected face *)

#[export] Instance ExpressionType_eq_dec : EqDecision ExpressionType.
Proof. solve_decision. Defined.

Module Hook.
Import Canvas Database.

Section Hook.
Context {N : Type} `{Number N}.

(** The [DetectedFace] of types/index.ts, which the record of the hook
    shadows. *)
Definition ServiceDetectedFace : Type := DetectedFace N.

(** The hook's own [DetectedFace]; [expressions] is a
    [Record<string, number>]. *)
Record DetectedFace : Type := {
  h_landmarks : list (list N);
  h_expressions : gmap string N;
  h_box : BoundingBox N;
  h_confidence : N
}.

(** [face.expression?.type === t ? face.expression.confidence : 0] *)
Definition expression_score (e : option (FacialExpression N)) (t : ExpressionType) : N :=
  match e with
  | Some fe => if decide (fe_type fe = t) then fe_confidence fe else lit 0
  | None => lit 0
  end.

(** The element [faces.map] makes of a face of the detection service. *)
Definition convert (face : ServiceDetectedFace) : DetectedFace :=
  {| h_landmarks := map (fun point => [lm_x point; lm_y point]) (landmarks face);
     h_expressions :=
       {[ "neutral" := expression_score (expression face) neutral;
          "happy" := expression_score (expression face) happy;
          "sad" := expression_score (expression face) sad;
          "angry" := expression_score (expression face) angry;
          "surprised" := expression_score (expression face) surprised ]};
     h_box := {| bb_x := bb_x (boundingBox face); bb_y := bb_y (boundingBox face);
                 bb_width := bb_width (boundingBox face);
                 bb_height := bb_height (boundingBox face) |};
     h_confidence := df_confidence face |}.

(** [detectFaces(input)] for a video or an image; [service] is
    [faceDetectionRef.current]. *)
Definition detectFaces (env : Detection.Environment N) (service : option Detection.State)
    (input : Source) : outcome (list DetectedFace) :=
  match service with
  | None => Throw (Error "Face detection service not initialized")
  | Some s =>
      match Detection.detectFaces env input s with
      | Ok faces => Ok (map convert faces)
      | Throw e => Throw e
      end
  end.

(** [expressions.key > threshold]; a missing key reads [undefined], which
    compares false. *)
Definition exceeds (expressions : gmap string N) (key : string) (threshold : N) : bool :=
  match expressions !! key with
  | Some v => (threshold <? v)%num
  | None => false
  end.

(** The score [findBestMatch] gives a face of the database, from the value
    [random] of its call of [Math.random]. *)
Definition score_of (random : N) (expressions : gmap string N) (faceData : FaceData) : N :=
  let score := (random * lit 0.5 + lit 0.5)%num in
  let score := if exceeds expressions "happy" (lit 0.7)
                  && bool_decide (fd_id faceData = "obama")
               then (score + lit 0.2)%num else score in
  let score := if exceeds expressions "neutral" (lit 0.8)
                  && bool_decide (fd_id faceData = "mona-lisa")
               then (score + lit 0.2)%num else score in
  if exceeds expressions "surprised" (lit 0.6)
     && bool_decide (fd_id faceData = "einstein")
  then (score + lit 0.2)%num else score.

(** The loop of [findBestMatch] over the faces that are left; [k] counts
    the calls of [Math.random] made so far. *)
Fixpoint best_match_loop (random : nat -> N) (expressions : gmap string N)
    (faces : list FaceData) (k : nat) (bestMatch : option FaceData) (bestScore : N)
    : option FaceData :=
  match faces with
  | [] => bestMatch
  | faceData :: rest =>
      let score := score_of (random k) expressions faceData in
      if (bestScore <? score)%num
      then best_match_loop random expressions rest (S k) (Some faceData) score
      else best_match_loop random expressions rest (S k) bestMatch bestScore
  end.

(** [findBestMatch(detectedFace)]: what it returns. *)
Definition findBestMatch (random : nat -> N) (detectedFace : DetectedFace)
    : option FaceData :=
  best_match_loop random (h_expressions detectedFace) faceDatabase 0 None (lit 0).

(** The [TargetFace] that [performFaceSwap] makes of a face of the
    database. *)
Definition serviceTargetFace (targetFace : FaceData) : TargetFace :=
  {| tf_id := fd_id targetFace;
     tf_name := fd_name targetFace;
     tf_imageUrl := imagePath targetFace;
     tf_thumbnailUrl := thumbnailPath targetFace;
     tf_expressions := fun e => match e with
                                | neutral => Some (imagePath targetFace)
                                | _ => None
                                end |}.

End Hook.

Arguments DetectedFace N : clear implicits.

End Hook.

(** ** Vocabulary of the tint *)

(** The factors a channel can be multiplied by: those of the table, the
    default 1, and NaN for a built-in found through the prototype. *)
Definition factor_values : list float :=
  [1.1; 1.0; 0.9; 1.05; 0.95; 0.85; 0.8; 1; nan]%float.

(** The byte stored for a byte [v] multiplied by [f]. *)
Definition tint_byte (f : float) (v : Z) : Z :=
  JS.to_uint8_clamp (JS.math_min 255 (JS.of_Z v * f)).

(** [P] holds of every factor and every byte. *)
Definition bytes_satisfy (P : float -> Z -> bool) : bool :=
  forallb (fun f => forallb (fun n => P f (Z.of_nat n)) (seq 0 256)) factor_values.

(** The decimal literals of the table and of its default. *)
Definition decimal_factors : list Q := [1.1; 1.0; 0.9; 1.05; 0.95; 0.85; 0.8; 1]%Q.

(** Inputs of runs of the detector. *)

Module DetectionExample.
Import Canvas Detection.

Definition frame : Source :=
  HTMLImageElement {| img_src := "frame.png"; img_width := 640; img_height := 480 |} false.

Definition ready : State := {| isInitialized := true |}.

Definition float_env : Environment float :=
  {| math_cos := fun _ => 1%float; math_sin := fun _ => 0%float;
     math_pi := 3.141592653589793%float;
     math_random := fun _ => 0.5%float; date_now := 1700000000000 |}.

Definition float_faces : list (Hook.DetectedFace float) :=
  match Hook.detectFaces float_env (Some ready) frame with
  | Ok faces => faces
  | Throw _ => []
  end.

End DetectionExample.

(** ** Vocabulary of the call *)

Section CallVocabulary.
Import Canvas Service.
Context {N : Type} `{Number N}.

(** The surface of the canvas after [swapFace] has given it the size of
    the source and drawn the source on it, before the compositing. *)
Definition frame_only (source : Source) : list (Op N) :=
  cv_surface (snd ((set_canvas_width (source_width source);;
                    set_canvas_height (source_height source);;
                    drawImage_at source (lit 0) (lit 0)) new_canvas)).

(** The drawing state an operation of the drawing model was issued
    under. *)
Definition op_state (op : Op N) : option (DrawingState N) :=
  match op with
  | DrawImage _ _ _ _ _ st | FillRect _ _ _ _ st => Some st
  | PutImageData _ _ _ => None
  end.

(** The two smoothing attributes of a drawing state. *)
Definition smoothing (st : DrawingState N) : bool * string :=
  (imageSmoothingEnabled st, imageSmoothingQuality st).

Definition drawn_with (q : bool * string) (op : Op N) : Prop :=
  match op_state op with
  | Some st => smoothing st = q
  | None => True
  end.

(** The current state, every saved state and every operation of the
    surface have the smoothing [q]. *)
Definition smoothing_is (q : bool * string) (c : Canvas N) : Prop :=
  smoothing (cv_state c) = q /\
  Forall (fun st => smoothing st = q) (cv_saved c) /\
  Forall (drawn_with q) (cv_surface c).

Definition keeps_smoothing {A : Type} (m : M N A) : Prop :=
  forall q c, smoothing_is q c -> smoothing_is q (snd (m c)).

(** The two assignments [performAdvancedSwap] makes before it draws the
    overlay. *)
Definition blend_setters (config : FaceSwapConfig N) : M N unit :=
  set_globalCompositeOperation (getBlendMode (blendMode config));;
  set_globalAlpha (getBlendOpacity (quality config)).

(** The draw of the overlay, issued under the state [st]. *)
Definition overlay_draw (face : DetectedFace N) (img : Image) (st : DrawingState N) : Op N :=
  let transform := calculateFaceTransform (boundingBox face) img (Some (landmarks face)) in
  DrawImage (HTMLImageElement img false)
    (translateX transform) (translateY transform)
    (scaleX transform * lit (inject_Z (img_width img)))%num
    (scaleY transform * lit (inject_Z (img_height img)))%num st.

End CallVocabulary.

(** Inputs of runs in exact arithmetic, and of runs of the demo service. *)

Module ExactExample.
Import Canvas Service.

Definition face : DetectedFace Q :=
  {| df_id := "face-1"; landmarks := []; boundingBox := region_100;
     df_confidence := 1%Q; expression := None |}.

Definition config (feather : Q) : FaceSwapConfig Q :=
  {| quality := "high"; blendMode := "normal"; featherAmount := feather;
     colorMatch := true; realTimeMode := false |}.

Definition no_image : Environment :=
  {| tf_ready := Ok tt; loadImage := fun _ => None |}.

End ExactExample.

Module DemoExample.
Import Demo.



Definition ready : State := initialize new_service.

End DemoExample.

(** * Properties *)

(** ** The laws of the order of the doubles *)

Section FloatOrder.

Lemma SFcompare_rank (f1 f2 : spec_float) :
  SFcompare f1 f2
  = match rank f1, rank f2 with
    | Some a, Some b => Some (lex_compare a b)
    | _, _ => None
    end.
Proof.
  destruct f1 as [s1|s1| |s1 m1 e1], f2 as [s2|s2| |s2 m2 e2];
    try destruct s1; try destruct s2; try reflexivity;
    cbn [SFcompare rank lex_compare Z.compare Pos.compare].
  rewrite Z.compare_opp, (Z.compare_antisym e1 e2).
  destruct (e1 ?= e2); reflexivity.
Qed.

Lemma lex_compare_spec (a b : Z * Z * Z) :
  match lex_compare a b with
  | Eq => a = b
  | Lt => lex_lt a b
  | Gt => lex_lt b a
  end.
Proof.
  destruct a as [[a1 a2] a3], b as [[b1 b2] b3]. unfold lex_compare, lex_lt.
  destruct (Z.compare_spec a1 b1); [|lia|lia].
  destruct (Z.compare_spec a2 b2); [|lia|lia].
  destruct (Z.compare_spec a3 b3); [congruence|lia|lia].
Qed.

End FloatOrder.

(** A fact about [<?], [<=?] and [is_nan] on doubles, by the ranks of the
    doubles it compares. *)
Ltac float_order :=
  unfold is_nan;
  rewrite ?FloatAxioms.ltb_spec, ?FloatAxioms.leb_spec, ?FloatAxioms.eqb_spec;
  unfold SFltb, SFleb, SFeqb; rewrite ?SFcompare_rank;
  repeat match goal with
         | |- context [rank (Prim2SF ?a)] =>
             let r := fresh "r" in
             generalize (rank (Prim2SF a)); intros r; destruct r as [[[? ?] ?]|]
         end;
  repeat match goal with
         | |- context [lex_compare ?a ?b] =>
             let H := fresh "H" in
             pose proof (lex_compare_spec a b) as H; destruct (lex_compare a b)
         end;
  cbn [negb lex_lt] in *; intros;
  try discriminate; try reflexivity;
  repeat match goal with H : (_, _, _) = (_, _, _) |- _ => injection H as ? ? ? end;
  try (exfalso; lia); try lia; auto.

Section FloatOrderFacts.
Local Open Scope float_scope.

Lemma ltb_leb (a b : float) : (a <? b) = true -> (a <=? b) = true.
Proof. float_order. Qed.

Lemma leb_refl (a : float) : is_nan a = false -> (a <=? a) = true.
Proof. float_order. Qed.

Lemma leb_total (a b : float) :
  is_nan a = false -> is_nan b = false -> (a <? b) = false -> (b <=? a) = true.
Proof. float_order. Qed.

Lemma ltb_leb_trans (a b c : float) :
  (a <? b) = true -> (b <=? c) = true -> (a <? c) = true.
Proof. float_order. Qed.

Lemma ltb_not_leb (a b : float) : (a <? b) = true -> (b <=? a) = false.
Proof. float_order. Qed.

Lemma leb_not_nan (a b : float) :
  (a <=? b) = true -> is_nan a = false /\ is_nan b = false.
Proof. float_order. Qed.

End FloatOrderFacts.

(** ** The tint *)

Section TintFacts.
Import Tint.

Lemma store_length (d : list Z) (i : nat) (x : float) :
  length (store d i x) = length d.
Proof. unfold store. apply length_insert. Qed.

Lemma store_lookup_ne (d : list Z) (i k : nat) (x : float) :
  i <> k -> store d i x !! k = d !! k.
Proof. intros Hik. unfold store. now apply list_lookup_insert_ne. Qed.

Lemma store_lookup_eq (d : list Z) (i : nat) (x : float) :
  store d i x !! i = (fun _ => JS.to_uint8_clamp x) <$> d !! i.
Proof.
  unfold store. destruct (d !! i) as [v|] eqn:E; simpl.
  - apply list_lookup_insert_eq. eapply lookup_lt_Some; eauto.
  - apply lookup_ge_None. rewrite length_insert. now apply lookup_ge_None.
Qed.

Lemma element_store_ne (d : list Z) (i k : nat) (x : float) :
  i <> k -> element (store d i x) k = element d k.
Proof. intros Hik. unfold element. now rewrite store_lookup_ne. Qed.

Lemma tint_pixel_length (t : JS.value Factors) (i : nat) (d : list Z) :
  length (tint_pixel t i d) = length d.
Proof. unfold tint_pixel. now rewrite !store_length. Qed.

Lemma channel_factor_r t j : channel_factor t (4 * j) = factor r t.
Proof.
  unfold channel_factor.
  replace ((4 * j) mod 4)%nat with 0%nat; [reflexivity|].
  symmetry. rewrite Nat.mul_comm. apply Nat.Div0.mod_mul.
Qed.

Lemma channel_factor_g t j : channel_factor t (4 * j + 1) = factor g t.
Proof.
  unfold channel_factor.
  replace ((4 * j + 1) mod 4)%nat with 1%nat; [reflexivity|].
  symmetry. rewrite Nat.add_comm, Nat.mul_comm. now rewrite Nat.Div0.mod_add.
Qed.

Lemma channel_factor_b t j : channel_factor t (4 * j + 2) = factor b t.
Proof.
  unfold channel_factor.
  replace ((4 * j + 2) mod 4)%nat with 2%nat; [reflexivity|].
  symmetry. rewrite Nat.add_comm, Nat.mul_comm. now rewrite Nat.Div0.mod_add.
Qed.

(** One iteration rewrites the three colour bytes of its pixel, each from
    its own old value, and nothing else. *)
Lemma tint_pixel_lookup (t : JS.value Factors) (j : nat) (d : list Z) (k : nat) :
  tint_pixel t (4 * j) d !! k =
  if decide (k = 4 * j \/ k = 4 * j + 1 \/ k = 4 * j + 2)%nat
  then tinted t k <$> d !! k
  else d !! k.
Proof.
  unfold tint_pixel.
  destruct (decide (k = 4 * j + 2)%nat) as [->|H2].
  { rewrite decide_True by lia. rewrite store_lookup_eq.
    rewrite !store_lookup_ne by lia. rewrite !element_store_ne by lia.
    unfold tinted, element. rewrite channel_factor_b.
    now destruct (d !! (4 * j + 2)%nat). }
  rewrite store_lookup_ne by lia.
  destruct (decide (k = 4 * j + 1)%nat) as [->|H1].
  { rewrite decide_True by lia. rewrite store_lookup_eq.
    rewrite !store_lookup_ne by lia. rewrite !element_store_ne by lia.
    unfold tinted, element. rewrite channel_factor_g.
    now destruct (d !! (4 * j + 1)%nat). }
  rewrite store_lookup_ne by lia.
  destruct (decide (k = 4 * j)%nat) as [->|H0].
  { rewrite decide_True by lia. rewrite store_lookup_eq.
    unfold tinted, element. rewrite channel_factor_r.
    now destruct (d !! (4 * j)%nat). }
  rewrite store_lookup_ne by lia.
  now rewrite decide_False by lia.
Qed.

Lemma tint_loop_length (n : nat) (t : JS.value Factors) (i : nat) (d : list Z) :
  length (tint_loop n t i d) = length d.
Proof.
  revert i d. induction n as [|n IH]; intros i d; simpl; [reflexivity|].
  destruct (i <? length d)%nat; [|reflexivity].
  now rewrite IH, tint_pixel_length.
Qed.

(** The loop started at pixel [j] with enough fuel: every colour byte from
    pixel [j] on is tinted once, from its own old value; the bytes before
    and the alpha bytes are kept. *)
Lemma tint_loop_lookup (n : nat) (t : JS.value Factors) (j : nat) (d : list Z) (k : nat) :
  (length d <= 4 * j + 4 * n)%nat ->
  tint_loop n t (4 * j) d !! k =
  if decide (4 * j <= k /\ k mod 4 <> 3)%nat
  then tinted t k <$> d !! k
  else d !! k.
Proof.
  revert j d. induction n as [|n IH]; intros j d Hfuel; cbn [tint_loop].
  - destruct (decide _) as [[Hk _]|_]; [|reflexivity].
    rewrite (proj2 (lookup_ge_None d k)) by lia. reflexivity.
  - destruct (4 * j <? length d)%nat eqn:Hlt.
    + replace (4 * j + 4)%nat with (4 * (S j))%nat by lia.
      rewrite IH by (rewrite tint_pixel_length; lia).
      rewrite tint_pixel_lookup.
      assert (Hmod : (k mod 4 < 4)%nat) by (apply Nat.mod_upper_bound; lia).
      assert (Hdiv : k = (4 * (k / 4) + k mod 4)%nat) by (apply Nat.div_mod_eq).
      destruct (decide (k = 4 * j \/ k = 4 * j + 1 \/ k = 4 * j + 2)%nat) as [Hin|Hout].
      * rewrite decide_False by lia.
        rewrite decide_True; [reflexivity|].
        split; [lia|]. lia.
      * destruct (decide (4 * S j <= k /\ k mod 4 <> 3)%nat) as [Ha|Ha].
        -- rewrite decide_True by lia. reflexivity.
        -- rewrite decide_False; [reflexivity|]. lia.
    + apply Nat.ltb_ge in Hlt.
      destruct (decide _) as [[Hk _]|_]; [|reflexivity].
      rewrite (proj2 (lookup_ge_None d k)) by lia. reflexivity.
Qed.

Lemma tint_loop_lookup_all (n : nat) (t : JS.value Factors) (d : list Z) (k : nat) :
  (length d <= 4 * n)%nat ->
  tint_loop n t 0 d !! k =
  if decide (k mod 4 <> 3)%nat then tinted t k <$> d !! k else d !! k.
Proof.
  intros Hfuel.
  pose proof (tint_loop_lookup n t 0 d k) as Hl.
  rewrite Nat.mul_0_r in Hl. rewrite Hl by lia.
  destruct (decide (k mod 4 <> 3)%nat) as [Hk|Hk].
  - rewrite decide_True by (split; [lia|exact Hk]). reflexivity.
  - rewrite decide_False; [reflexivity|]. tauto.
Qed.

(** The fuel [applyFaceSwapEffect] gives the loop is enough: more fuel
    changes nothing. *)
Lemma tint_loop_fuel (extra : nat) (t : JS.value Factors) (d : list Z) :
  tint_loop (length d + extra) t 0 d = tint_loop (length d) t 0 d.
Proof.
  apply list_eq. intros k.
  rewrite !tint_loop_lookup_all by lia. reflexivity.
Qed.

End TintFacts.

Section TintClaims.
Import Tint.

(** The loop tints every colour byte of the buffer once and keeps every
    alpha byte, whatever the identity. *)
Lemma applyFaceSwapEffect_lookup (img : ImageData) (id : string) (k : nat) :
  data (applyFaceSwapEffect img id) !! k =
  if decide (k mod 4 <> 3)%nat
  then tinted (transform_for id) k <$> data img !! k
  else data img !! k.
Proof.
  unfold applyFaceSwapEffect; cbn [data].
  apply tint_loop_lookup_all. lia.
Qed.

Lemma byte_times_one (v : Z) :
  is_byte v -> JS.to_uint8_clamp (JS.math_min 255 (JS.of_Z v * 1)) = v.
Proof.
  intros [Hlo Hhi].
  assert (Hall : forallb
            (fun n => JS.to_uint8_clamp (JS.math_min 255 (JS.of_Z (Z.of_nat n) * 1))
                      =? Z.of_nat n) (seq 0 256) = true)
    by (vm_compute; reflexivity).
  rewrite forallb_forall in Hall.
  specialize (Hall (Z.to_nat v)).
  rewrite Z2Nat.id in Hall by lia.
  apply Z.eqb_eq, Hall, in_seq. lia.
Qed.

(** With the default factors a buffer of bytes is left as it is. *)
Lemma default_factors_keep_bytes (img : ImageData) (id : string) :
  transform_for id = JS.Val {| r := 1; g := 1; b := 1 |} ->
  Forall is_byte (data img) ->
  data (applyFaceSwapEffect img id) = data img.
Proof.
  intros Ht Hbytes. apply list_eq. intros k.
  rewrite applyFaceSwapEffect_lookup, Ht.
  destruct (decide _) as [_|_]; [|reflexivity].
  destruct (data img !! k) as [v|] eqn:Hk; [|reflexivity]. cbn.
  f_equal. unfold tinted, channel_factor.
  assert (Hv : is_byte v).
  { rewrite Forall_forall in Hbytes. apply Hbytes.
    eapply list_elem_of_lookup_2; eauto. }
  destruct (k mod 4)%nat as [|[|?]]; cbn [factor r g b]; now apply byte_times_one.
Qed.

Lemma transformations_lookup_other (id : string) :
  id <> "einstein" -> id <> "mona-lisa" -> id <> "obama" ->
  transformations !! id = None.
Proof.
  intros H1 H2 H3. unfold transformations.
  rewrite !lookup_insert_ne by congruence. apply lookup_singleton_ne. congruence.
Qed.

(** C6: with identity "einstein" the factors are (1.1, 1.0, 0.9), every
    colour byte of every buffer becomes its product with the factor of its
    channel, clamped at 255 by the store, so (200,200,200) becomes
    (220,200,180) and the red of (250,250,250) becomes 255; an identity
    that is neither a key of the table nor a name inherited from
    Object.prototype gets the factors (1,1,1), which leave a buffer of
    bytes as it is.  The identity "constructor" is not a key of the table,
    yet it does not get (1,1,1): the lookup finds the inherited built-in,
    whose factors are undefined, and the pixel (200,200,200) becomes
    (0,0,0). *)
Theorem tint_einstein_and_unknown_ids :
  transform_for "einstein" = JS.Val {| r := 1.1; g := 1.0; b := 0.9 |} /\
  (forall (img : ImageData) (k : nat),
     data (applyFaceSwapEffect img "einstein") !! k =
     if decide (k mod 4 <> 3)%nat
     then tinted (JS.Val {| r := 1.1; g := 1.0; b := 0.9 |}) k <$> data img !! k
     else data img !! k) /\
  data (applyFaceSwapEffect {| width := 1; height := 1; data := [200; 200; 200; 255] |}
          "einstein") = [220; 200; 180; 255] /\
  data (applyFaceSwapEffect {| width := 1; height := 1; data := [250; 250; 250; 255] |}
          "einstein") = [255; 250; 225; 255] /\
  (forall id : string,
     id <> "einstein" -> id <> "mona-lisa" -> id <> "obama" ->
     id ∉ JS.object_prototype_keys ->
     transform_for id = JS.Val {| r := 1; g := 1; b := 1 |} /\
     forall img : ImageData,
       Forall is_byte (data img) -> data (applyFaceSwapEffect img id) = data img) /\
  transform_for "constructor" = JS.Builtin "constructor" /\
  data (applyFaceSwapEffect {| width := 1; height := 1; data := [200; 200; 200; 255] |}
          "constructor") = [0; 0; 0; 255].
Proof.
  assert (He : transform_for "einstein" = JS.Val {| r := 1.1; g := 1.0; b := 0.9 |})
    by (vm_compute; reflexivity).
  split; [exact He|].
  split; [intros img k; rewrite applyFaceSwapEffect_lookup, He; reflexivity|].
  split; [vm_compute; reflexivity|].
  split; [vm_compute; reflexivity|].
  split.
  { intros id H1 H2 H3 Hproto.
    assert (Hid : transform_for id = JS.Val {| r := 1; g := 1; b := 1 |}).
    { unfold transform_for, JS.get.
      rewrite transformations_lookup_other by assumption.
      now rewrite decide_False by exact Hproto. }
    split; [exact Hid|].
    intros img Hbytes. now apply default_factors_keep_bytes. }
  split; vm_compute; reflexivity.
Qed.

(** C10: the tint changes neither the width nor the height of the buffer
    nor the length of its data, and it leaves the alpha byte of every pixel
    as it was, for every buffer and every identity. *)
Theorem tint_keeps_alpha_and_size (img : ImageData) (id : string) :
  width (applyFaceSwapEffect img id) = width img /\
  height (applyFaceSwapEffect img id) = height img /\
  length (data (applyFaceSwapEffect img id)) = length (data img) /\
  forall p : nat,
    data (applyFaceSwapEffect img id) !! (4 * p + 3)%nat = data img !! (4 * p + 3)%nat.
Proof.
  split; [reflexivity|]. split; [reflexivity|].
  split; [apply tint_loop_length|].
  intros p. rewrite applyFaceSwapEffect_lookup.
  rewrite decide_False; [reflexivity|].
  intros Hne. apply Hne.
  rewrite Nat.add_comm, Nat.mul_comm. now rewrite Nat.Div0.mod_add.
Qed.

End TintClaims.

(** ** The transform solver *)

Section TransformFacts.
Import Canvas Service.
Local Open Scope Q_scope.






End TransformFacts.

(** C9: the landmarks of the detected face take no part: the solver, the
    compositing and the whole call give the same result for any two
    landmark sets, all else being equal. *)
Theorem landmarks_are_not_used {N : Type} `{Number N}
    (region : BoundingBox N) (overlay : Image)
    (l1 l2 : list (FaceLandmarks N))
    (id : string) (confidence : N) (e : option (FacialExpression N)) :
  let face1 := {| df_id := id; landmarks := l1; boundingBox := region;
                  df_confidence := confidence; expression := e |} in
  let face2 := {| df_id := id; landmarks := l2; boundingBox := region;
                  df_confidence := confidence; expression := e |} in
  Service.calculateFaceTransform region overlay (Some l1)
  = Service.calculateFaceTransform region overlay (Some l2) /\
  Service.calculateFaceTransform region overlay (Some l1)
  = Service.calculateFaceTransform region overlay None /\
  (forall config c,
     Service.performAdvancedSwap face1 overlay config c
     = Service.performAdvancedSwap face2 overlay config c) /\
  (forall env source target config s,
     Service.swapFace env source face1 target config s
     = Service.swapFace env source face2 target config s).
Proof.
  intros face1 face2.
  split; [reflexivity|]. split; [reflexivity|].
  split; [intros; reflexivity|].
  intros env source target config s. reflexivity.
Qed.

(** ** The feather mask *)

Section MaskFacts.
Import Canvas Service.
Local Open Scope Q_scope.










End MaskFacts.

Section MaskClaims.
Import Canvas Service.
Local Open Scope Q_scope.




End MaskClaims.

(** ** The rendering context *)

Create HintDb frame.

Section CanvasFacts.
Import Canvas.
Context {N : Type} `{Number N}.

Lemma keeps_frame_ret {A : Type} (a : A) : keeps_frame (Canvas.ret a : M N A).
Proof. intros c. repeat split. now exists []. Qed.

Lemma keeps_frame_mret {A : Type} (a : A) : keeps_frame (mret a : M N A).
Proof. apply keeps_frame_ret. Qed.

Lemma keeps_frame_throw {A : Type} (e : Exception) : keeps_frame (throw e : M N A).
Proof. intros c. repeat split. now exists []. Qed.

Lemma keeps_frame_modify (f : DrawingState N -> DrawingState N) :
  keeps_frame (modify f).
Proof. intros c. repeat split. now exists []. Qed.

Lemma keeps_frame_paint (op : DrawingState N -> Op N) : keeps_frame (paint op).
Proof. intros c. repeat split. now exists [op (cv_state c)]. Qed.

Lemma keeps_frame_bind {A B : Type} (m : M N A) (k : A -> M N B) :
  keeps_frame m -> (forall a, keeps_frame (k a)) -> keeps_frame (m ≫= k).
Proof.
  intros Hm Hk c. unfold mbind, canvas_bind, Canvas.bind.
  destruct (Hm c) as (Hw & Hh & Hs & new & Hnew).
  destruct (m c) as [[a|e] c1]; cbn [snd] in *.
  - destruct (Hk a c1) as (Hw' & Hh' & Hs' & new' & Hnew').
    repeat split; try congruence.
    exists (new' ++ new). rewrite Hnew', Hnew. now rewrite app_assoc.
  - repeat split; try assumption. now exists new.
Qed.

Lemma keeps_frame_try_catch {A : Type} (m : M N A) (handler : Exception -> M N A) :
  keeps_frame m -> (forall e, keeps_frame (handler e)) ->
  keeps_frame (try_catch m handler).
Proof.
  intros Hm Hk c. unfold try_catch.
  destruct (Hm c) as (Hw & Hh & Hs & new & Hnew).
  destruct (m c) as [[a|e] c1]; cbn [snd] in *.
  - repeat split; try assumption. now exists new.
  - destruct (Hk e c1) as (Hw' & Hh' & Hs' & new' & Hnew').
    repeat split; try congruence.
    exists (new' ++ new). rewrite Hnew', Hnew. now rewrite app_assoc.
Qed.

Lemma keeps_frame_if {A : Type} (b : bool) (m1 m2 : M N A) :
  keeps_frame m1 -> keeps_frame m2 -> keeps_frame (if b then m1 else m2).
Proof. now destruct b. Qed.

#[local] Hint Resolve keeps_frame_ret keeps_frame_mret keeps_frame_throw
  keeps_frame_modify keeps_frame_paint keeps_frame_bind keeps_frame_try_catch
  keeps_frame_if : frame.

Lemma keeps_frame_set_globalCompositeOperation (v : JS.value string) :
  keeps_frame (set_globalCompositeOperation (N := N) v).
Proof.
  unfold set_globalCompositeOperation.
  destruct v as [s|k]; [destruct (decide _)|]; auto with frame.
Qed.

Lemma keeps_frame_set_globalAlpha (v : JS.value N) : keeps_frame (set_globalAlpha v).
Proof.
  unfold set_globalAlpha.
  destruct v as [a|k]; [destruct (in_unit_range a)|]; auto with frame.
Qed.

Lemma keeps_frame_set_fillStyle (s : FillStyle N) : keeps_frame (set_fillStyle s).
Proof. apply keeps_frame_modify. Qed.

Lemma keeps_frame_set_filter (s : string) : keeps_frame (set_filter (N := N) s).
Proof. apply keeps_frame_modify. Qed.

Lemma keeps_frame_fillRect (x y w h : N) : keeps_frame (fillRect x y w h).
Proof. unfold fillRect. auto with frame. Qed.

Lemma keeps_frame_drawImage (image : Source) (dx dy dw dh : N) :
  keeps_frame (drawImage image dx dy dw dh).
Proof.
  unfold drawImage. apply keeps_frame_if; [auto with frame|].
  destruct (usable image) as [[|]|e]; auto with frame.
Qed.

Lemma keeps_frame_createRadialGradient (x0 y0 r0 x1 y1 r1 : N) :
  keeps_frame (createRadialGradient x0 y0 r0 x1 y1 r1).
Proof. unfold createRadialGradient. auto with frame. Qed.

(** [getImageData] changes nothing. *)
Lemma getImageData_canvas (sx sy sw sh : N) (c : Canvas N) :
  snd (getImageData sx sy sw sh c) = c.
Proof.
  unfold getImageData.
  destruct (enforce_long sx), (enforce_long sy), (enforce_long sw), (enforce_long sh);
    try reflexivity.
  now destruct (_ || _)%bool.
Qed.

Lemma keeps_frame_getImageData (sx sy sw sh : N) :
  keeps_frame (getImageData sx sy sw sh).
Proof. intros c. rewrite getImageData_canvas. repeat split. now exists []. Qed.

Lemma keeps_frame_putImageData (d : ImageData N) (dx dy : N) :
  keeps_frame (putImageData d dx dy).
Proof.
  unfold putImageData.
  destruct (enforce_long dx) as [x|e]; [destruct (enforce_long dy) as [y|e]|];
    try apply keeps_frame_throw.
  intros c. repeat split. now exists [PutImageData d x y].
Qed.

End CanvasFacts.

#[export] Hint Resolve keeps_frame_ret keeps_frame_mret keeps_frame_throw
  keeps_frame_modify keeps_frame_paint keeps_frame_bind keeps_frame_try_catch
  keeps_frame_if keeps_frame_set_globalCompositeOperation
  keeps_frame_set_globalAlpha keeps_frame_set_fillStyle keeps_frame_set_filter
  keeps_frame_fillRect keeps_frame_drawImage keeps_frame_createRadialGradient
  keeps_frame_getImageData keeps_frame_putImageData : frame.

(** ** The pipeline: the drawing state *)

Section StateFacts.
Import Canvas Service.
Context {N : Type} `{Number N}.

Lemma keeps_frame_feather_gradient (region : BoundingBox N) (amount : N) :
  keeps_frame (feather_gradient region amount).
Proof. unfold feather_gradient. auto with frame. Qed.

Lemma keeps_frame_applyFeathering (region : BoundingBox N) (amount : N) :
  keeps_frame (applyFeathering region amount).
Proof.
  unfold applyFeathering.
  auto 10 using keeps_frame_feather_gradient with frame.
Qed.

Lemma keeps_frame_applyColorMatching (region : BoundingBox N) :
  keeps_frame (applyColorMatching region).
Proof. unfold applyColorMatching. auto 10 with frame. Qed.

Lemma performAdvancedSwap_unfold (face : DetectedFace N) (img : Image)
    (config : FaceSwapConfig N) :
  performAdvancedSwap face img config
  = (save;; try_finally (swap_body face img config) restore).
Proof. reflexivity. Qed.

Lemma keeps_frame_swap_body (face : DetectedFace N) (img : Image)
    (config : FaceSwapConfig N) :
  keeps_frame (swap_body face img config).
Proof.
  unfold swap_body.
  auto 12 using keeps_frame_applyFeathering, keeps_frame_applyColorMatching
    with frame.
Qed.

(** [performAdvancedSwap] returns with the drawing state and the stack it
    was entered with, whether its body throws or not. *)
Lemma performAdvancedSwap_restores (face : DetectedFace N) (img : Image)
    (config : FaceSwapConfig N) (c : Canvas N) :
  let c' := snd (performAdvancedSwap face img config c) in
  cv_state c' = cv_state c /\ cv_saved c' = cv_saved c /\
  cv_width c' = cv_width c /\ cv_height c' = cv_height c.
Proof.
  rewrite performAdvancedSwap_unfold.
  unfold mbind, canvas_bind, Canvas.bind, save, try_finally; cbn [fst snd].
  set (c1 := {| cv_width := cv_width c; cv_height := cv_height c;
                cv_state := cv_state c; cv_saved := cv_state c :: cv_saved c;
                cv_surface := cv_surface c |}).
  destruct (keeps_frame_swap_body face img config c1) as (Hw & Hh & Hs & _).
  destruct (swap_body face img config c1) as [o c2]; cbn [snd] in *.
  unfold restore. rewrite Hs. cbn. auto.
Qed.

(** After the two assignments to the size of the canvas nothing of the
    earlier canvas is left. *)
Lemma compose_forgets (source : Source) (face : DetectedFace N) (img : Image)
    (config : FaceSwapConfig N) (c c' : Canvas N) :
  compose source face img config c = compose source face img config c'.
Proof. reflexivity. Qed.

Lemma initialize_flag (env : Environment) (s s' : State N) :
  isInitialized s = isInitialized s' ->
  fst (initialize env s) = fst (initialize env s') /\
  isInitialized (snd (initialize env s)) = isInitialized (snd (initialize env s')).
Proof.
  intros Hflag. unfold initialize. rewrite <- Hflag.
  destruct (isInitialized s) eqn:Hi; cbn [fst snd].
  - split; [reflexivity|]. congruence.
  - destruct (tf_ready env); cbn; split; congruence.
Qed.

(** What a call returns depends on the service only through
    [isInitialized]. *)
Lemma swapFace_result_flag (env : Environment) (source : Source)
    (face : DetectedFace N) (target : TargetFace) (config : FaceSwapConfig N)
    (s s' : State N) :
  isInitialized s = isInitialized s' ->
  fst (swapFace env source face target config s)
  = fst (swapFace env source face target config s').
Proof.
  intros Hflag. unfold swapFace.
  destruct (initialize_flag env s s' Hflag) as [Ho Hf].
  destruct (initialize env s) as [o1 s1], (initialize env s') as [o1' s1'];
    cbn [fst snd] in *. subst o1'.
  destruct o1 as [[]|e]; [|reflexivity].
  destruct (loadImage env _) as [img|]; [|reflexivity].
  rewrite (compose_forgets source face img config (canvas s1) (canvas s1')).
  now destruct (compose source face img config (canvas s1')) as [[d|e] c2].
Qed.

(** The flag after a call does not depend on the configuration of the
    call. *)
Lemma swapFace_flag (env : Environment) (source : Source)
    (face : DetectedFace N) (target : TargetFace) (config config' : FaceSwapConfig N)
    (s : State N) :
  isInitialized (snd (swapFace env source face target config s))
  = isInitialized (snd (swapFace env source face target config' s)).
Proof.
  unfold swapFace.
  destruct (initialize env s) as [[[]|e] s1]; [|reflexivity].
  destruct (loadImage env _) as [img|]; [|reflexivity].
  destruct (compose source face img config (canvas s1)) as [[d|e] c2],
           (compose source face img config' (canvas s1)) as [[d'|e'] c2'];
    reflexivity.
Qed.

Lemma compose_blend_defaults (source : Source) (face : DetectedFace N) (img : Image)
    (config : FaceSwapConfig N) (c : Canvas N) :
  blend_defaults (snd (compose source face img config c)).
Proof.
  set (c0 := {| cv_width := source_width source; cv_height := source_height source;
                cv_state := default_state; cv_saved := []; cv_surface := [] |}).
  change (compose source face img config c)
    with ((drawImage_at source (lit 0) (lit 0);;
           performAdvancedSwap face img config;;
           c ← canvas_now;
           getImageData (lit 0) (lit 0) (lit (inject_Z (cv_width c)))
             (lit (inject_Z (cv_height c)))) c0).
  unfold mbind, canvas_bind, Canvas.bind.
  assert (H0 : cv_state (snd (drawImage_at source (lit 0) (lit 0) c0)) = default_state
               /\ cv_saved (snd (drawImage_at source (lit 0) (lit 0) c0)) = []).
  { unfold drawImage_at, drawImage.
    destruct (negb _); [now cbn|].
    destruct (usable source) as [[|]|e]; try now cbn.
    destruct (_ || _)%bool; now cbn. }
  destruct (drawImage_at source (lit 0) (lit 0) c0) as [[[]|e] c1];
    cbn [snd] in H0; destruct H0 as [Hst Hsv].
  - pose proof (performAdvancedSwap_restores face img config c1) as (Hs & Hv & _).
    destruct (performAdvancedSwap face img config c1) as [[[]|e] c2]; cbn [snd] in *.
    + unfold canvas_now; cbn beta iota. rewrite getImageData_canvas.
      unfold blend_defaults. rewrite Hv, Hs, Hst, Hsv. now cbn.
    + cbn [snd]. unfold blend_defaults. rewrite Hv, Hs, Hst, Hsv. now cbn.
  - cbn [snd]. unfold blend_defaults. rewrite Hst, Hsv. now cbn.
Qed.

Lemma swapFace_blend_defaults (env : Environment) (source : Source)
    (face : DetectedFace N) (target : TargetFace) (config : FaceSwapConfig N)
    (s : State N) :
  blend_defaults (canvas s) ->
  blend_defaults (canvas (snd (swapFace env source face target config s))).
Proof.
  intros Hs. unfold swapFace, initialize.
  destruct (isInitialized s) eqn:Hi.
  - destruct (loadImage env _) as [img|]; [|exact Hs].
    pose proof (compose_blend_defaults source face img config (canvas s)) as Hc.
    now destruct (compose source face img config (canvas s)) as [[d|e] c2].
  - destruct (tf_ready env) as [[]|e]; [|exact Hs].
    cbn [canvas isInitialized].
    destruct (loadImage env _) as [img|].
    + set (c1 := snd (setupCanvasProcessing (canvas s))).
      pose proof (compose_blend_defaults source face img config c1) as Hc.
      now destruct (compose source face img config c1) as [[d|e] c2].
    + cbn. destruct Hs as (Hg & Ha & Hv). repeat split; assumption.
Qed.

End StateFacts.

Section StateClaims.
Import Canvas Service.
Context {N : Type} `{Number N}.

Lemma after_calls_blend_defaults (calls : list (Call N)) (s : State N) :
  blend_defaults (canvas s) -> blend_defaults (canvas (after_calls calls s)).
Proof.
  revert s. induction calls as [|k calls IH]; intros s Hs; [exact Hs|].
  cbn [after_calls fold_left]. apply IH. unfold call.
  now apply swapFace_blend_defaults.
Qed.

(** A call that succeeds leaves the blend state at its defaults, whatever
    the canvas was before. *)
Lemma swapFace_success_blend_defaults (env : Environment) (source : Source)
    (face : DetectedFace N) (target : TargetFace) (config : FaceSwapConfig N)
    (s : State N) :
  success (fst (swapFace env source face target config s)) = true ->
  blend_defaults (canvas (snd (swapFace env source face target config s))).
Proof.
  unfold swapFace.
  destruct (initialize env s) as [[[]|e] s1]; [|discriminate].
  destruct (loadImage env _) as [img|]; [|discriminate].
  pose proof (compose_blend_defaults source face img config (canvas s1)) as Hc.
  now destruct (compose source face img config (canvas s1)) as [[d|e] c2].
Qed.

(** C5: after any sequence of calls on a new service, and after any call
    that succeeds on any service, the blend mode of the context is
    source-over, its opacity is 1.0 and no saved state is left on its
    stack; the compositing itself returns with the drawing state it was
    entered with; and what a call returns does not depend on the
    configuration (blend mode, quality, feather, colour matching) of the
    call before it. *)
Theorem blend_state_is_reset (calls : list (Call N)) :
  let c := canvas (after_calls calls new_service) in
  globalCompositeOperation (cv_state c) = "source-over" /\
  globalAlpha (cv_state c) = lit 1 /\
  cv_saved c = [] /\
  (forall (s : State N) env source face target config,
     success (fst (swapFace env source face target config s)) = true ->
     let c' := canvas (snd (swapFace env source face target config s)) in
     globalCompositeOperation (cv_state c') = "source-over" /\
     globalAlpha (cv_state c') = lit 1) /\
  (forall face img config c0,
     cv_state (snd (performAdvancedSwap face img config c0)) = cv_state c0 /\
     cv_saved (snd (performAdvancedSwap face img config c0)) = cv_saved c0) /\
  (forall (s : State N) env source face target config1 config1' (next : Call N),
     fst (call next (snd (swapFace env source face target config1 s)))
     = fst (call next (snd (swapFace env source face target config1' s)))).
Proof.
  intros c.
  assert (Hc : blend_defaults c).
  { apply after_calls_blend_defaults. now cbn. }
  destruct Hc as (Hg & Ha & Hv).
  do 3 (split; [assumption|]).
  split; [|split].
  - intros s env source face target config Hok c'.
    destruct (swapFace_success_blend_defaults env source face target config s Hok)
      as (Hg' & Ha' & _).
    now split.
  - intros face img config c0.
    pose proof (performAdvancedSwap_restores face img config c0) as (Hs & Hsv & _).
    now split.
  - intros s env source face target config1 config1' next.
    unfold call. apply swapFace_result_flag, swapFace_flag.
Qed.

End StateClaims.

(** ** The pipeline: the order of the operations *)

Lemma source_over_is_valid : "source-over" ∈ Canvas.composite_operations.
Proof. unfold Canvas.composite_operations. set_solver. Qed.

Lemma destination_in_is_valid : "destination-in" ∈ Canvas.composite_operations.
Proof. unfold Canvas.composite_operations. set_solver. Qed.

Ltac run_method :=
  unfold mbind, mret, canvas_bind, canvas_ret, Canvas.bind, Canvas.ret,
    Canvas.modify, Canvas.paint, Canvas.throw in *;
  repeat match goal with
         | |- context [decide ("destination-in" ∈ Canvas.composite_operations)] =>
             rewrite (decide_True (P := "destination-in" ∈ Canvas.composite_operations))
               by exact destination_in_is_valid
         | |- context [decide ("source-over" ∈ Canvas.composite_operations)] =>
             rewrite (decide_True (P := "source-over" ∈ Canvas.composite_operations))
               by exact source_over_is_valid
         | |- context [if ?b then _ else _] => destruct b eqn:?
         | |- context [match ?o with Canvas.Ok _ => _ | Canvas.Throw _ => _ end] =>
             destruct o eqn:?
         end;
  cbn [fst snd Canvas.cv_surface Canvas.cv_state Canvas.cv_saved
       Canvas.cv_width Canvas.cv_height].

Section OrderFacts.
Import Canvas Service.
Context {N : Type} `{Number N}.

Lemma issues_bind {A B : Type} (m : M N A) (k : A -> M N B)
    (R1 R2 : list (Op N) -> Prop) :
  issues m R1 -> (forall a, issues (k a) R2) -> R2 [] ->
  issues (m ≫= k) (fun new => exists n1 n2, new = n2 ++ n1 /\ R1 n1 /\ R2 n2).
Proof.
  intros Hm Hk Hnil c. unfold mbind, canvas_bind, Canvas.bind.
  destruct (Hm c) as (n1 & Hn1 & H1).
  destruct (m c) as [[a|e] c1]; cbn [snd] in *.
  - destruct (Hk a c1) as (n2 & Hn2 & H2).
    exists (n2 ++ n1). split; [now rewrite Hn2, Hn1, app_assoc|].
    now exists n1, n2.
  - exists n1. split; [assumption|]. now exists n1, [].
Qed.

Lemma issues_weaken {A : Type} (m : M N A) (R R' : list (Op N) -> Prop) :
  issues m R -> (forall new, R new -> R' new) -> issues m R'.
Proof.
  intros Hm Himp c. destruct (Hm c) as (new & Hnew & HR).
  exists new. auto.
Qed.

Lemma issues_nothing_ret {A : Type} (a : A) :
  issues (mret a : M N A) (fun new => new = []).
Proof. intros c. now exists []. Qed.

Lemma issues_nothing_set_globalCompositeOperation (v : JS.value string) :
  issues (set_globalCompositeOperation (N := N) v) (fun new => new = []).
Proof.
  intros c. exists []. split; [|reflexivity].
  unfold set_globalCompositeOperation.
  destruct v as [s|k]; [destruct (decide _)|]; reflexivity.
Qed.

Lemma issues_nothing_set_globalAlpha (v : JS.value N) :
  issues (set_globalAlpha v) (fun new => new = []).
Proof.
  intros c. exists []. split; [|reflexivity].
  unfold set_globalAlpha.
  destruct v as [a|k]; [destruct (in_unit_range a)|]; reflexivity.
Qed.

(** [applyFeathering] adds at most one operation, a fill of the gradient
    under destination-in. *)
Lemma applyFeathering_issues (region : BoundingBox N) (amount : N) :
  issues (applyFeathering region amount)
    (fun new => Forall (fun op => is_mask op = true) new /\ (length new <= 1)%nat).
Proof.
  intros c.
  unfold applyFeathering, feather_gradient, createRadialGradient, fillRect,
    set_fillStyle, set_globalCompositeOperation.
  run_method;
    first [ exists []; split; [reflexivity|]; split; [constructor | cbn; lia]
          | eexists [_]; split; [reflexivity|]; split;
            [repeat constructor | cbn; lia] ].
Qed.


(** [applyColorMatching] adds at most one operation, a [putImageData]. *)
Lemma applyColorMatching_issues (region : BoundingBox N) :
  issues (applyColorMatching region)
    (fun new => Forall (fun op => is_put op = true) new /\ (length new <= 1)%nat).
Proof.
  intros c.
  unfold applyColorMatching, try_catch, getImageData, putImageData, set_filter.
  run_method.
  all: repeat match goal with
         | |- context [enforce_long ?a] => destruct (enforce_long a) eqn:?
         | |- context [if ?b then _ else _] => destruct b eqn:?
         end;
    cbn [fst snd cv_surface];
    first [ exists []; split; [reflexivity|]; split; [constructor | cbn; lia]
          | eexists [_]; split; [reflexivity|]; split;
            [repeat constructor | cbn; lia] ].
Qed.

Lemma issues_skip {A B : Type} (m : M N A) (k : A -> M N B)
    (R : list (Op N) -> Prop) :
  issues m (fun new => new = []) -> (forall a, issues (k a) R) -> R [] ->
  issues (m ≫= k) R.
Proof.
  intros Hm Hk Hnil.
  eapply issues_weaken; [now apply (issues_bind m k _ R Hm Hk)|].
  intros new (n1 & n2 & -> & -> & HR). now rewrite app_nil_r.
Qed.



End OrderFacts.

Section OrderClaims.
Import Canvas Service.
Context {N : Type} `{Number N}.

Lemma performAdvancedSwap_surface (face : DetectedFace N) (img : Image)
    (config : FaceSwapConfig N) (c : Canvas N) :
  exists c1, cv_surface c1 = cv_surface c /\
    cv_surface (snd (performAdvancedSwap face img config c))
    = cv_surface (snd (swap_body face img config c1)).
Proof.
  rewrite performAdvancedSwap_unfold.
  unfold mbind, canvas_bind, Canvas.bind, save, try_finally; cbn [fst snd].
  eexists {| cv_width := cv_width c; cv_height := cv_height c;
             cv_state := cv_state c; cv_saved := cv_state c :: cv_saved c;
             cv_surface := cv_surface c |}.
  split; [reflexivity|].
  destruct (swap_body _ _ _ _) as [o c2]; cbn [snd].
  unfold restore. now destruct (cv_saved c2).
Qed.


End OrderClaims.

(** ** The pipeline: failures *)

Section OutcomeFacts.
Import Canvas Service.
Context {N : Type} `{Number N}.

Lemma fst_bind {A B : Type} (m : M N A) (k : A -> M N B) (c : Canvas N) :
  fst ((m ≫= k) c)
  = match fst (m c) with
    | Ok a => fst (k a (snd (m c)))
    | Throw e => Throw e
    end.
Proof.
  unfold mbind, canvas_bind, Canvas.bind. now destruct (m c) as [[a|e] c1].
Qed.

Lemma set_globalCompositeOperation_ok (v : JS.value string) (c : Canvas N) :
  fst (set_globalCompositeOperation v c) = Ok tt.
Proof.
  unfold set_globalCompositeOperation.
  destruct v as [s|k]; [destruct (decide _)|]; reflexivity.
Qed.

Lemma set_globalAlpha_ok (v : JS.value N) (c : Canvas N) :
  fst (set_globalAlpha v c) = Ok tt.
Proof.
  unfold set_globalAlpha.
  destruct v as [a|k]; [destruct (in_unit_range a)|]; reflexivity.
Qed.

(** An image that has loaded is drawn, or skipped, without an exception. *)
Lemma drawImage_loaded_ok (img : Image) (dx dy dw dh : N) (c : Canvas N) :
  fst (drawImage (HTMLImageElement img false) dx dy dw dh c) = Ok tt.
Proof. unfold drawImage, usable. run_method; reflexivity. Qed.

(** [applyColorMatching] swallows every exception. *)
Lemma applyColorMatching_ok (region : BoundingBox N) (c : Canvas N) :
  fst (applyColorMatching region c) = Ok tt.
Proof.
  unfold applyColorMatching, try_catch.
  match goal with
  | |- context [let (_, _) := ?m in _] => destruct m as [[[]|e] c1]
  end; reflexivity.
Qed.

Lemma feather_gradient_outcome (region : BoundingBox N) (amount : N) (c c' : Canvas N) :
  is_ok (fst (feather_gradient region amount c))
  = is_ok (fst (feather_gradient region amount c')).
Proof.
  unfold feather_gradient, createRadialGradient. run_method; reflexivity.
Qed.

(** [applyFeathering] throws exactly when the creation of its gradient
    does. *)
Lemma applyFeathering_outcome (region : BoundingBox N) (amount : N) (c : Canvas N) :
  fst (applyFeathering region amount c)
  = match fst (feather_gradient region amount c) with
    | Ok _ => Ok tt
    | Throw e => Throw e
    end.
Proof.
  unfold applyFeathering, feather_gradient, createRadialGradient, fillRect,
    set_fillStyle, set_globalCompositeOperation.
  run_method; cbn [fst] in *; congruence.
Qed.

Lemma swap_body_outcome (face : DetectedFace N) (img : Image)
    (config : FaceSwapConfig N) (c : Canvas N) :
  is_ok (fst (swap_body face img config c)) = gradient_builds (boundingBox face) config.
Proof.
  unfold swap_body, gradient_builds. rewrite fst_bind.
  destruct (lit 0 <? featherAmount config)%num eqn:Hfa; cbn [negb orb].
  - rewrite applyFeathering_outcome.
    rewrite (feather_gradient_outcome _ _ new_canvas c).
    destruct (fst (feather_gradient _ _ c)) as [g|e]; [|reflexivity].
    rewrite fst_bind, set_globalCompositeOperation_ok.
    rewrite fst_bind, set_globalAlpha_ok.
    rewrite fst_bind, drawImage_loaded_ok.
    rewrite fst_bind, set_globalCompositeOperation_ok.
    rewrite fst_bind, set_globalAlpha_ok.
    destruct (colorMatch config); [now rewrite applyColorMatching_ok|reflexivity].
  - cbn [mret canvas_ret Canvas.ret fst].
    rewrite fst_bind, set_globalCompositeOperation_ok.
    rewrite fst_bind, set_globalAlpha_ok.
    rewrite fst_bind, drawImage_loaded_ok.
    rewrite fst_bind, set_globalCompositeOperation_ok.
    rewrite fst_bind, set_globalAlpha_ok.
    destruct (colorMatch config); [now rewrite applyColorMatching_ok|reflexivity].
Qed.

Lemma performAdvancedSwap_outcome (face : DetectedFace N) (img : Image)
    (config : FaceSwapConfig N) (c : Canvas N) :
  is_ok (fst (performAdvancedSwap face img config c))
  = gradient_builds (boundingBox face) config.
Proof.
  rewrite performAdvancedSwap_unfold.
  unfold mbind at 1. unfold canvas_bind, Canvas.bind, save, try_finally; cbn [fst snd].
  match goal with
  | |- context [swap_body face img config ?c1] =>
      rewrite <- (swap_body_outcome face img config c1);
      now destruct (swap_body face img config c1)
  end.
Qed.

Lemma drawImage_at_outcome (source : Source) (c c' : Canvas N) :
  fst (drawImage_at source (lit 0) (lit 0) c)
  = fst (drawImage_at source (lit 0) (lit 0) c').
Proof. unfold drawImage_at, drawImage. run_method; reflexivity. Qed.

Lemma getImageData_outcome (sx sy sw sh : N) (c c' : Canvas N) :
  is_ok (fst (getImageData sx sy sw sh c)) = is_ok (fst (getImageData sx sy sw sh c')).
Proof.
  unfold getImageData.
  destruct (enforce_long sx), (enforce_long sy), (enforce_long sw), (enforce_long sh);
    try reflexivity.
  now destruct (_ || _)%bool.
Qed.

End OutcomeFacts.

Section OutcomeClaims.
Import Canvas Service.
Context {N : Type} `{Number N}.

Lemma compose_outcome (source : Source) (face : DetectedFace N) (img : Image)
    (config : FaceSwapConfig N) (c : Canvas N) :
  is_ok (fst (compose source face img config c))
  = source_draws source && gradient_builds (boundingBox face) config
    && pixels_readable source.
Proof.
  set (c0 := {| cv_width := source_width source; cv_height := source_height source;
                cv_state := default_state; cv_saved := []; cv_surface := [] |}).
  change (compose source face img config c)
    with ((drawImage_at source (lit 0) (lit 0);;
           performAdvancedSwap face img config;;
           c ← canvas_now;
           getImageData (lit 0) (lit 0) (lit (inject_Z (cv_width c)))
             (lit (inject_Z (cv_height c)))) c0).
  unfold source_draws, pixels_readable.
  rewrite fst_bind, (drawImage_at_outcome source new_canvas c0).
  destruct (keeps_frame_drawImage source (lit 0) (lit 0)
              (lit (inject_Z (source_width source)))
              (lit (inject_Z (source_height source))) c0) as (Hw1 & Hh1 & _).
  fold (drawImage_at source (lit 0) (lit 0)) in Hw1, Hh1.
  destruct (drawImage_at source (lit 0) (lit 0) c0) as [[[]|e] c1];
    cbn [fst snd is_ok andb] in *; [|reflexivity].
  rewrite fst_bind.
  pose proof (performAdvancedSwap_outcome face img config c1) as Hout.
  pose proof (performAdvancedSwap_restores face img config c1) as (_ & _ & Hw2 & Hh2).
  destruct (performAdvancedSwap face img config c1) as [[[]|e] c2];
    cbn [fst snd is_ok] in *; rewrite <- Hout; [|reflexivity].
  cbn [andb]. unfold mbind, canvas_bind, Canvas.bind, canvas_now.
  rewrite Hw2, Hh2, Hw1, Hh1. cbn [cv_width cv_height c0].
  apply getImageData_outcome.
Qed.

(** C8: a call succeeds exactly when the service initializes, the target
    image loads, the source can be drawn, the gradient of the mask (when
    the feather amount is above 0) can be created and the pixels of the
    canvas can be read back.  Neither the area of the region nor the size
    of the overlay is among these conditions: the overlay does not occur
    in them at all, and the region occurs only in the creation of the
    gradient. *)
Theorem swapFace_success (env : Environment) (source : Source)
    (face : DetectedFace N) (target : TargetFace) (config : FaceSwapConfig N)
    (s : State N) :
  success (fst (swapFace env source face target config s))
  = initializes env s
    && match loadImage env (target_url target face) with
       | Some _ =>
           source_draws source && gradient_builds (boundingBox face) config
           && pixels_readable source
       | None => false
       end.
Proof.
  unfold swapFace, initializes, initialize, target_url.
  destruct (isInitialized s); cbn [orb].
  - cbn [andb]. destruct (loadImage env _) as [img|]; [|reflexivity].
    rewrite <- (compose_outcome source face img config (canvas s)).
    now destruct (compose source face img config (canvas s)) as [[d|e] c2].
  - destruct (tf_ready env) as [[]|e]; cbn [is_ok andb]; [|reflexivity].
    destruct (loadImage env _) as [img|]; [|reflexivity].
    cbn [canvas].
    set (c1 := snd (setupCanvasProcessing (canvas s))).
    rewrite <- (compose_outcome source face img config c1).
    now destruct (compose source face img config c1) as [[d|e] c2].
Qed.

End OutcomeClaims.

(** ** Colour matching *)

Section ColourFacts.
Import Canvas Service.
Context {N : Type} `{Number N}.
Variable drawing_model : Op N -> Bitmap -> Bitmap.

Lemma shown_put (sx sy sw sh : Z) (content : list (Op N)) (dx dy : Z)
    (under : Bitmap) (px py : Z) :
  after_op drawing_model (PutImageData (Pixels sx sy sw sh content) dx dy) under px py
  = if ((dx <=? px) && (px <? dx + sw) && (dy <=? py) && (py <? dy + sh))%bool
    then shown drawing_model content (sx + (px - dx)) (sy + (py - dy))
    else under px py.
Proof.
  cbn [after_op]. now destruct (_ && _)%bool.
Qed.

(** Writing back, at its own origin, the pixels just read changes no
    pixel. *)
Lemma put_back_changes_nothing (x y w h : Z) (surface : list (Op N)) (px py : Z) :
  0 <= w -> 0 <= h ->
  shown drawing_model
    (PutImageData (Pixels (Z.min x (x + w)) (Z.min y (y + h)) (Z.abs w) (Z.abs h)
                     surface) x y :: surface) px py
  = shown drawing_model surface px py.
Proof.
  intros Hw Hh. cbn [shown fold_right]. rewrite shown_put.
  destruct (_ && _)%bool; [|reflexivity].
  rewrite !Z.min_l by lia. unfold shown. f_equal; lia.
Qed.

(** What [applyColorMatching] does to the surface: nothing, or the pixels
    of the region, as they were read, put back at the position of the
    region. *)
Lemma applyColorMatching_surface (region : BoundingBox N) (c : Canvas N) :
  cv_surface (snd (applyColorMatching region c)) = cv_surface c \/
  cv_surface (snd (applyColorMatching region c))
  = PutImageData
      (Pixels (Z.min (extent (bb_x region)) (extent (bb_x region) + extent (bb_width region)))
              (Z.min (extent (bb_y region)) (extent (bb_y region) + extent (bb_height region)))
              (Z.abs (extent (bb_width region))) (Z.abs (extent (bb_height region)))
              (cv_surface c))
      (extent (bb_x region)) (extent (bb_y region)) :: cv_surface c.
Proof.
  unfold applyColorMatching, try_catch, getImageData, putImageData, set_filter, extent.
  unfold mbind, mret, canvas_bind, canvas_ret, Canvas.bind, Canvas.ret, modify, throw.
  destruct (enforce_long (bb_x region)) as [x|e]; [|now left].
  destruct (enforce_long (bb_y region)) as [y|e]; [|now left].
  destruct (enforce_long (bb_width region)) as [w|e]; [|now left].
  destruct (enforce_long (bb_height region)) as [h|e]; [|now left].
  destruct (_ || _)%bool; [now left|]. now right.
Qed.

End ColourFacts.

Section ColourClaims.
Import Canvas Service.
Context {N : Type} `{Number N}.

(** C7: for a region whose width and height are not negative, colour
    matching leaves every pixel of the surface as it was, whatever the
    drawing model: it reads the pixels of the region and writes the same
    pixels back at the same place, and the filter it sets in between takes
    no part in [putImageData]. *)
Theorem colour_matching_changes_no_pixel (drawing_model : Op N -> Bitmap -> Bitmap)
    (region : BoundingBox N) (c : Canvas N) :
  0 <= extent (bb_width region) -> 0 <= extent (bb_height region) ->
  forall px py : Z,
    shown drawing_model (cv_surface (snd (applyColorMatching region c))) px py
    = shown drawing_model (cv_surface c) px py.
Proof.
  intros Hw Hh px py.
  destruct (applyColorMatching_surface region c) as [-> | ->]; [reflexivity|].
  now apply put_back_changes_nothing.
Qed.

End ColourClaims.

(** ** Runs of the program *)

Section Runs.
Import Canvas Service Example.

(** The literals of the source are the doubles they denote. *)
Lemma literals_are_doubles :
  lit (N := float) 0.3 = 0.3%float /\ lit (N := float) 0.8 = 0.8%float /\
  lit (N := float) 0.9 = 0.9%float /\ lit (N := float) 0.95 = 0.95%float /\
  lit (N := float) 2 = 2%float /\ lit (N := float) 1 = 1%float /\
  lit (N := float) 0 = 0%float.
Proof. repeat split; vm_compute; reflexivity. Qed.


Lemma feather_run_order :
  map (fun op => (is_put op, is_overlay overlay op, is_mask op))
    (issued (performAdvancedSwap (face 50 50 100 100) overlay
               (config "high" "normal" 0.5 true)) stage)
  = [(true, false, false); (false, true, false); (false, false, true)].
Proof. vm_compute. reflexivity. Qed.

(** The transform of the region (50, 50, 100, 100) for an overlay of
    200 by 200, as the program computes it. *)
Lemma transform_run :
  calculateFaceTransform (boundingBox (face 50 50 100 100)) overlay None
  = {| scaleX := 0.5%float; scaleY := 0.5%float;
       translateX := 50%float; translateY := 50%float |}.
Proof. vm_compute. reflexivity. Qed.


(** A region of no area and an overlay of no size both give a success. *)
Lemma zero_size_is_a_success :
  success (fst (swapFace (env overlay) background (face 50 50 0 0) target
                  (config "high" "normal" 0.5 true) new_service)) = true /\
  success (fst (swapFace (env empty_overlay) background (face 50 50 100 100) target
                  (config "high" "normal" 0.5 true) new_service)) = true /\
  calculateFaceTransform (boundingBox (face 50 50 100 100)) empty_overlay None
  = {| scaleX := nan; scaleY := nan; translateX := nan; translateY := nan |}.
Proof. repeat split; vm_compute; reflexivity. Qed.

(** The quality "constructor" is none of low, medium and high, and it
    does not fall back to 0.9: the lookup yields a built-in, the assignment
    to [globalAlpha] is ignored, and the overlay is drawn with opacity 1. *)
Lemma inherited_quality_is_not_defaulted :
  ~ (forall quality : string,
       quality <> "low" -> quality <> "medium" -> quality <> "high" ->
       getBlendOpacity (N := float) quality = JS.Val 0.9%float) /\
  map alpha_of (issued (performAdvancedSwap (face 50 50 100 100) overlay
                          (config "constructor" "normal" 0 false)) stage)
  = [Some 1%float].
Proof.
  split; [|vm_compute; reflexivity].
  intros Hclaim.
  specialize (Hclaim "constructor" ltac:(discriminate) ltac:(discriminate)
                ltac:(discriminate)).
  vm_compute in Hclaim. discriminate Hclaim.
Qed.

End Runs.

(** ** Blend mode and opacity *)

Section BlendClaims.
Import Canvas Service.

Lemma blendModes_lookup_other (mode : string) :
  mode <> "normal" -> mode <> "overlay" -> mode <> "multiply" ->
  blendModes !! mode = None.
Proof.
  intros H1 H2 H3. unfold blendModes.
  rewrite !lookup_insert_ne by congruence. apply lookup_singleton_ne. congruence.
Qed.

Lemma opacityMap_lookup_other (quality : string) :
  quality <> "low" -> quality <> "medium" -> quality <> "high" ->
  opacityMap (N := float) !! quality = None.
Proof.
  intros H1 H2 H3. unfold opacityMap.
  rewrite !lookup_insert_ne by congruence. apply lookup_singleton_ne. congruence.
Qed.

(** C4: blend mode normal maps to source-over, overlay to overlay and
    multiply to multiply; quality low maps to 0.8, medium to 0.9 and high
    to 0.95; any other blend mode, and any other quality, that is not a
    name inherited from Object.prototype falls back to source-over, and to
    0.9; no value at all makes the two assignments throw, and any blend
    mode outside the table leaves a context that is in source-over in
    source-over. *)
Theorem blend_tables :
  getBlendMode "normal" = JS.Val "source-over" /\
  getBlendMode "overlay" = JS.Val "overlay" /\
  getBlendMode "multiply" = JS.Val "multiply" /\
  (forall mode : string,
     mode <> "normal" -> mode <> "overlay" -> mode <> "multiply" ->
     mode ∉ JS.object_prototype_keys ->
     getBlendMode mode = JS.Val "source-over") /\
  getBlendOpacity (N := float) "low" = JS.Val 0.8%float /\
  getBlendOpacity (N := float) "medium" = JS.Val 0.9%float /\
  getBlendOpacity (N := float) "high" = JS.Val 0.95%float /\
  (forall quality : string,
     quality <> "low" -> quality <> "medium" -> quality <> "high" ->
     quality ∉ JS.object_prototype_keys ->
     getBlendOpacity (N := float) quality = JS.Val 0.9%float) /\
  (forall (mode quality : string) (c : Canvas float),
     fst ((set_globalCompositeOperation (getBlendMode mode);;
           set_globalAlpha (getBlendOpacity quality)) c) = Ok tt) /\
  (forall (mode : string) (c : Canvas float),
     mode <> "normal" -> mode <> "overlay" -> mode <> "multiply" ->
     globalCompositeOperation (cv_state c) = "source-over" ->
     globalCompositeOperation
       (cv_state (snd (set_globalCompositeOperation (getBlendMode mode) c)))
     = "source-over").
Proof.
  split; [vm_compute; reflexivity|].
  split; [vm_compute; reflexivity|].
  split; [vm_compute; reflexivity|].
  split.
  { intros mode H1 H2 H3 Hproto. unfold getBlendMode, JS.get.
    rewrite blendModes_lookup_other by assumption.
    now rewrite decide_False by exact Hproto. }
  split; [vm_compute; reflexivity|].
  split; [vm_compute; reflexivity|].
  split; [vm_compute; reflexivity|].
  split.
  { intros quality H1 H2 H3 Hproto. unfold getBlendOpacity, JS.get.
    rewrite opacityMap_lookup_other by assumption.
    rewrite decide_False by exact Hproto. vm_compute. reflexivity. }
  split.
  { intros mode quality c.
    now rewrite fst_bind, set_globalCompositeOperation_ok, set_globalAlpha_ok. }
  intros mode c H1 H2 H3 Hc. unfold getBlendMode, JS.get.
  rewrite blendModes_lookup_other by assumption.
  destruct (decide _) as [Hin|Hout]; cbn [JS.or_default set_globalCompositeOperation];
    [exact Hc|].
  unfold set_globalCompositeOperation.
  now rewrite decide_True by exact source_over_is_valid.
Qed.

End BlendClaims.

Section ColourRuns.
Import Canvas Service Example.

Lemma colour_matching_changes_no_pixel_witness :
  shown (fun _ under => under)
    (cv_surface (snd (applyColorMatching (boundingBox (face 50 50 100 100)) stage))) 60 60
  = shown (fun _ under => under) (cv_surface stage) 60 60.
Proof.
  apply (colour_matching_changes_no_pixel (fun _ under => under)
           (boundingBox (face 50 50 100 100)) stage); vm_compute; discriminate.
Defined.

(** In the run of the whole pipeline colour matching is on and its
    [putImageData] is issued under the filter it has just set. *)
Lemma colour_matching_run :
  cv_surface (snd (applyColorMatching (boundingBox (face 50 50 100 100)) stage))
  = PutImageData (Pixels 50 50 100 100 (cv_surface stage)) 50 50 :: cv_surface stage.
Proof. vm_compute. reflexivity. Qed.

End ColourRuns.

(** ** The tint: every identity, every byte *)

Section TintBytes.
Import Tint.

(** The factors of an identity are those of its entry, the default, or
    those of a built-in. *)
Lemma transform_for_cases (id : string) :
  transform_for id = JS.Val {| r := 1.1; g := 1.0; b := 0.9 |} \/
  transform_for id = JS.Val {| r := 1.05; g := 0.95; b := 0.85 |} \/
  transform_for id = JS.Val {| r := 0.95; g := 0.9; b := 0.8 |} \/
  transform_for id = JS.Val {| r := 1; g := 1; b := 1 |} \/
  transform_for id = JS.Builtin id.
Proof.
  destruct (decide (id = "einstein")) as [->|H1]; [left; vm_compute; reflexivity|].
  destruct (decide (id = "mona-lisa")) as [->|H2]; [right; left; vm_compute; reflexivity|].
  destruct (decide (id = "obama")) as [->|H3];
    [right; right; left; vm_compute; reflexivity|].
  unfold transform_for, JS.get.
  rewrite transformations_lookup_other by assumption.
  destruct (decide _); cbn; auto.
Qed.

Lemma channel_factor_values (id : string) (k : nat) :
  In (channel_factor (transform_for id) k) factor_values.
Proof.
  unfold channel_factor.
  destruct (transform_for_cases id) as [-> | [-> | [-> | [-> | ->]]]];
    destruct (k mod 4)%nat as [|[|?]]; cbn; tauto.
Qed.

(** What is checked of every factor and every byte holds of every
    identity, every channel and every byte. *)
Lemma bytes_satisfy_sound (P : float -> Z -> bool) :
  bytes_satisfy P = true ->
  forall id k v, is_byte v -> P (channel_factor (transform_for id) k) v = true.
Proof.
  unfold bytes_satisfy. intros Hall id k v [Hlo Hhi].
  rewrite forallb_forall in Hall.
  specialize (Hall _ (channel_factor_values id k)).
  rewrite forallb_forall in Hall.
  specialize (Hall (Z.to_nat v)). rewrite Z2Nat.id in Hall by lia.
  apply Hall, in_seq. lia.
Qed.

(** The tint of a channel preserves the order of two bytes. *)
Lemma tinted_mono (id : string) (k : nat) (u v : Z) :
  is_byte u -> is_byte v -> u <= v ->
  tinted (transform_for id) k u <= tinted (transform_for id) k v.
Proof.
  intros Hu Hv Huv.
  assert (Hstep : forall w, is_byte w -> w < 255 ->
            tinted (transform_for id) k w <= tinted (transform_for id) k (w + 1)).
  { intros w Hw Hlt.
    pose proof (bytes_satisfy_sound
                  (fun f v => (v =? 255) || (tint_byte f v <=? tint_byte f (v + 1)))
                  ltac:(vm_compute; reflexivity) id k w Hw) as Hb.
    apply orb_true_iff in Hb as [Hb|Hb]; [lia|].
    unfold tinted. fold (tint_byte (channel_factor (transform_for id) k) w).
    fold (tint_byte (channel_factor (transform_for id) k) (w + 1)). lia. }
  replace v with (u + Z.of_nat (Z.to_nat (v - u))) in * by lia.
  induction (Z.to_nat (v - u)) as [|n IH].
  - rewrite Z.add_0_r. lia.
  - assert (Hn : is_byte (u + Z.of_nat n)) by (unfold is_byte in *; lia).
    specialize (IH Hn ltac:(lia)).
    specialize (Hstep (u + Z.of_nat n) Hn ltac:(unfold is_byte in *; lia)).
    replace (u + Z.of_nat (S n)) with (u + Z.of_nat n + 1) by lia. lia.
Qed.

Lemma byte_of_buffer (d : list Z) (k : nat) (v : Z) :
  Forall is_byte d -> d !! k = Some v -> is_byte v.
Proof.
  intros Hall Hk. rewrite Forall_forall in Hall. apply Hall.
  eapply list_elem_of_lookup_2; eauto.
Qed.

Lemma prototype_key_transform (id : string) :
  id ∈ JS.object_prototype_keys -> transform_for id = JS.Builtin id.
Proof.
  intros Hin. unfold transform_for, JS.get.
  rewrite transformations_lookup_other;
    [now rewrite decide_True by exact Hin | ..];
    intros ->; apply list_elem_of_In in Hin; cbn in Hin;
    repeat destruct Hin as [Hin|Hin]; try discriminate Hin; exact Hin.
Qed.

Lemma tinted_builtin (key : string) (k : nat) (v : Z) :
  is_byte v -> tinted (JS.Builtin key) k v = 0.
Proof.
  intros [Hlo Hhi].
  assert (Hall : forallb (fun n => tint_byte nan (Z.of_nat n) =? 0) (seq 0 256) = true)
    by (vm_compute; reflexivity).
  rewrite forallb_forall in Hall.
  specialize (Hall (Z.to_nat v)). rewrite Z2Nat.id in Hall by lia.
  unfold tinted, channel_factor.
  destruct (k mod 4)%nat as [|[|?]]; cbn [factor];
    apply Z.eqb_eq, Hall, in_seq; lia.
Qed.

End TintBytes.

Section TintProperties.
Import Tint.

(** X2: the tint preserves the order of the values of a channel: of two
    bytes of the same channel the one that was not larger before is not
    larger afterwards, for every identity. *)
Theorem tint_keeps_order (img : ImageData) (id : string) (i j : nat) (u v : Z) :
  (i mod 4 = j mod 4)%nat ->
  data img !! i = Some u -> data img !! j = Some v ->
  is_byte u -> is_byte v -> u <= v ->
  exists u' v',
    data (applyFaceSwapEffect img id) !! i = Some u' /\
    data (applyFaceSwapEffect img id) !! j = Some v' /\
    u' <= v'.
Proof.
  intros Hch Hi Hj Hu Hv Huv.
  rewrite !applyFaceSwapEffect_lookup, Hi, Hj, Hch.
  destruct (decide _) as [_|_]; [|now exists u, v].
  exists (tinted (transform_for id) i u), (tinted (transform_for id) j v).
  split; [reflexivity|]. split; [reflexivity|].
  replace (tinted (transform_for id) j v) with (tinted (transform_for id) i v)
    by (unfold tinted, channel_factor; now rewrite Hch).
  now apply tinted_mono.
Qed.

Lemma tint_keeps_order_witness :
  exists u' v',
    data (applyFaceSwapEffect
            {| width := 2; height := 1; data := [55; 0; 0; 255; 56; 0; 0; 255] |}
            "einstein") !! 0%nat = Some u' /\
    data (applyFaceSwapEffect
            {| width := 2; height := 1; data := [55; 0; 0; 255; 56; 0; 0; 255] |}
            "einstein") !! 4%nat = Some v' /\
    u' <= v'.
Proof.
  apply (tint_keeps_order
           {| width := 2; height := 1; data := [55; 0; 0; 255; 56; 0; 0; 255] |}
           "einstein" 0 4 55 56);
    try reflexivity; unfold is_byte; lia.
Defined.

(** X3: a colour byte moves the way its factor points: a factor of at
    least 1 does not lower it and a factor of at most 1 does not raise it;
    so "einstein" never lowers a red byte, never changes a green byte and
    never raises a blue byte. *)
Theorem tint_follows_factor (img : ImageData) (id : string) (k : nat) (v : Z) :
  data img !! k = Some v -> is_byte v -> (k mod 4 <> 3)%nat ->
  exists v',
    data (applyFaceSwapEffect img id) !! k = Some v' /\
    ((1 <=? channel_factor (transform_for id) k)%float = true -> v <= v') /\
    ((channel_factor (transform_for id) k <=? 1)%float = true -> v' <= v).
Proof.
  intros Hk Hv Hch.
  rewrite applyFaceSwapEffect_lookup, Hk, decide_True by exact Hch.
  exists (tinted (transform_for id) k v). split; [reflexivity|].
  pose proof (bytes_satisfy_sound
                (fun f v => (negb (1 <=? f)%float || (v <=? tint_byte f v))
                            && (negb (f <=? 1)%float || (tint_byte f v <=? v)))
                ltac:(vm_compute; reflexivity) id k v Hv) as Hb.
  apply andb_true_iff in Hb as [Hup Hdown].
  unfold tinted. fold (tint_byte (channel_factor (transform_for id) k) v).
  split; intros Hf; rewrite Hf in *; cbn in *; lia.
Qed.

Lemma tint_follows_factor_witness :
  exists v',
    data (applyFaceSwapEffect {| width := 1; height := 1; data := [200; 200; 200; 255] |}
            "einstein") !! 2%nat = Some v' /\
    ((1 <=? channel_factor (transform_for "einstein") 2)%float = true -> 200 <= v') /\
    ((channel_factor (transform_for "einstein") 2 <=? 1)%float = true -> v' <= 200).
Proof.
  apply (tint_follows_factor
           {| width := 1; height := 1; data := [200; 200; 200; 255] |} "einstein" 2 200);
    [reflexivity | unfold is_byte; lia | cbn; lia].
Defined.

(** X4: an identity that is the name of a property of Object.prototype
    turns every colour byte of every buffer of bytes to 0 and keeps every
    alpha byte. *)
Theorem inherited_ids_black_out (img : ImageData) (id : string) :
  id ∈ JS.object_prototype_keys -> Forall is_byte (data img) ->
  forall k : nat,
    data (applyFaceSwapEffect img id) !! k =
    if decide (k mod 4 <> 3)%nat then (fun _ => 0) <$> data img !! k
    else data img !! k.
Proof.
  intros Hin Hbytes k.
  rewrite applyFaceSwapEffect_lookup, (prototype_key_transform id Hin).
  destruct (decide _) as [_|_]; [|reflexivity].
  destruct (data img !! k) as [v|] eqn:Hv; [|reflexivity]. cbn.
  f_equal. apply tinted_builtin. exact (byte_of_buffer _ _ _ Hbytes Hv).
Qed.

Lemma inherited_ids_black_out_witness :
  data (applyFaceSwapEffect {| width := 1; height := 1; data := [200; 100; 50; 255] |}
          "toString") !! 1%nat = Some 0.
Proof.
  rewrite (inherited_ids_black_out
             {| width := 1; height := 1; data := [200; 100; 50; 255] |} "toString").
  - reflexivity.
  - unfold JS.object_prototype_keys. set_solver.
  - repeat constructor; cbn; lia.
Defined.

Local Open Scope Q_scope.

(** X5: the byte stored is right to half a unit: for a factor written as
    the decimal [q] in the table (or the default 1) and a byte [v], the
    byte stored is 255 when the exact product [v * q] is at least 255 and
    otherwise differs from the exact product by at most 1/2, although the
    product is computed in binary floating point. *)
Theorem tint_is_right_to_half_a_unit (id : string) (k : nat) (v : Z) (q : Q) :
  is_byte v -> In q decimal_factors ->
  channel_factor (transform_for id) k = lit q ->
  (255 <= inject_Z v * q -> tinted (transform_for id) k v = 255%Z) /\
  (inject_Z v * q < 255 ->
   Qabs (inject_Z (tinted (transform_for id) k v) - inject_Z v * q) <= 1 # 2).
Proof.
  intros [Hlo Hhi] Hq Hf. unfold tinted. rewrite Hf. clear Hf.
  assert (Hall : forallb (fun q => forallb (fun n =>
            let v := Z.of_nat n in
            let res := tint_byte (lit q) v in
            if Qle_bool 255 (inject_Z v * q) then (res =? 255)%Z
            else Qle_bool (Qabs (inject_Z res - inject_Z v * q)) (1 # 2))
            (seq 0 256)) decimal_factors = true) by (vm_compute; reflexivity).
  rewrite forallb_forall in Hall. specialize (Hall q Hq).
  rewrite forallb_forall in Hall. specialize (Hall (Z.to_nat v)).
  rewrite Z2Nat.id in Hall by lia.
  specialize (Hall ltac:(apply in_seq; lia)). cbn zeta in Hall.
  fold (tint_byte (lit q) v).
  destruct (Qle_bool 255 (inject_Z v * q)) eqn:Hbig.
  - apply Qle_bool_iff in Hbig. split; [intros _; now apply Z.eqb_eq|].
    intros Hlt. lra.
  - split.
    + intros Hge. apply Qle_bool_iff in Hge. congruence.
    + intros _. now apply Qle_bool_iff.
Qed.

Lemma tint_is_right_to_half_a_unit_witness :
  tinted (transform_for "einstein") 0 55 = 61%Z /\
  Qabs (inject_Z (tinted (transform_for "einstein") 0 55) - inject_Z 55 * 1.1) <= 1 # 2.
Proof.
  split; [vm_compute; reflexivity|].
  apply (tint_is_right_to_half_a_unit "einstein" 0 55 1.1);
    [unfold is_byte; lia | cbn; tauto | vm_compute; reflexivity | reflexivity].
Defined.

End TintProperties.

(** ** The demo service *)

Section DemoProperties.
Import Canvas Database Demo.

(** No method gives the service a model. *)
Lemma after_calls_model (calls : list Method) (s : State) :
  model s = None -> model (after_calls calls s) = None.
Proof.
  revert s. induction calls as [|m calls IH]; intros s Hs; [exact Hs|].
  cbn [after_calls fold_left]. apply IH.
  destruct m; cbn; try exact Hs. now rewrite Hs.
Qed.

(** X6: the demo service never gets a model: after any sequence of calls
    of its methods on a new service, [initialize] included, [isReady()] is
    false and [swapFaces] throws 'Face swap service not initialized'
    without reaching [performSwap]. *)
Theorem demo_swapFaces_always_throws
    (performSwap : FaceData -> FaceData -> outcome Tint.ImageData)
    (calls : list Method) (sourceFace targetFace : FaceData) :
  let s := after_calls calls new_service in
  model s = None /\
  isReady s = false /\
  swapFaces performSwap sourceFace targetFace s
  = Throw (Error "Face swap service not initialized").
Proof.
  intros s.
  assert (Hm : model s = None) by (apply after_calls_model; reflexivity).
  split; [exact Hm|]. unfold isReady, swapFaces. rewrite Hm.
  split; [apply andb_false_r|]. now rewrite orb_true_r.
Qed.


End DemoProperties.

(** ** The face database *)

Section DatabaseProperties.
Import Database.

(** X8: [getFaceById] returns the face of the database that has the id,
    and none for an id that no face has; the ids it finds are the own keys
    of the table of the tint, so that the tint of a face of the database is
    that of its own entry, never the default. *)
Theorem getFaceById_finds_the_face :
  (forall (id : string) (face : FaceData),
     getFaceById id = Some face <-> In face faceDatabase /\ fd_id face = id) /\
  (forall id : string,
     getFaceById id = None <-> forall face, In face faceDatabase -> fd_id face <> id) /\
  (forall id : string, is_Some (getFaceById id) <-> is_Some (Tint.transformations !! id)).
Proof.
  split; [|split].
  - intros id face. split.
    + intros Hfind. apply find_some in Hfind as [Hin Hid].
      split; [exact Hin|]. now apply bool_decide_eq_true in Hid.
    + intros [Hin <-]. cbn in Hin.
      destruct Hin as [<- | [<- | [<- | []]]]; reflexivity.
  - intros id. split.
    + intros Hnone face Hin Hid.
      pose proof (find_none _ _ Hnone face Hin) as Hf.
      apply bool_decide_eq_false in Hf. contradiction.
    + intros Hall. destruct (getFaceById id) as [face|] eqn:Hfind; [|reflexivity].
      apply find_some in Hfind as [Hin Hid]. apply bool_decide_eq_true in Hid.
      now destruct (Hall face Hin).
  - intros id.
    destruct (decide (id = "einstein")) as [->|H1]; [split; intros _; vm_compute; eauto|].
    destruct (decide (id = "mona-lisa")) as [->|H2]; [split; intros _; vm_compute; eauto|].
    destruct (decide (id = "obama")) as [->|H3]; [split; intros _; vm_compute; eauto|].
    rewrite transformations_lookup_other by assumption.
    unfold getFaceById, faceDatabase. cbn [List.find fd_id].
    rewrite !bool_decide_eq_false_2 by congruence.
    split; intros [x Hx]; discriminate Hx.
Qed.

End DatabaseProperties.

(** ** The mock detector *)

Section DetectionFacts.
Local Open Scope float_scope.

(** [Math.max(0, Math.min(hi, x))] is NaN when [x] is, and lies between 0
    and [hi] when it is not. *)
Lemma clamp_in_range (hi x : float) :
  (0 <=? hi) = true ->
  let clamped := JS.math_max 0 (JS.math_min hi x) in
  if is_nan x then is_nan clamped = true
  else (0 <=? clamped) = true /\ (clamped <=? hi) = true.
Proof.
  intros Hhi. destruct (leb_not_nan _ _ Hhi) as [_ Hnan_hi]. cbn zeta.
  destruct (is_nan x) eqn:Hx.
  - unfold JS.math_min. rewrite Hx, orb_true_r. reflexivity.
  - assert (Hm : exists m, JS.math_min hi x = m /\ is_nan m = false /\ (m <=? hi) = true).
    { unfold JS.math_min. rewrite Hnan_hi, Hx. cbn [orb].
      destruct (hi <? x) eqn:H1.
      { eexists. split; [reflexivity|]. split; [exact Hnan_hi | now apply leb_refl]. }
      destruct (x <? hi) eqn:H2.
      { eexists. split; [reflexivity|]. split; [exact Hx | now apply ltb_leb]. }
      destruct (get_sign hi); eexists; (split; [reflexivity|]).
      - split; [exact Hnan_hi | now apply leb_refl].
      - split; [exact Hx | now apply leb_total]. }
    destruct Hm as (m & -> & Hm & Hle).
    unfold JS.math_max. replace (is_nan 0) with false by reflexivity.
    rewrite Hm. cbn [orb].
    destruct (0 <? m) eqn:H1; [split; [now apply ltb_leb | exact Hle]|].
    destruct (m <? 0) eqn:H2; [split; [reflexivity | exact Hhi]|].
    replace (get_sign 0) with false by reflexivity.
    split; [reflexivity | exact Hhi].
Qed.

Lemma clamp_nan_or_in_range (hi x : float) :
  (0 <=? hi) = true ->
  let clamped := n_max (lit 0) (n_min hi x) in
  is_nan clamped = true \/ ((0 <=? clamped) = true /\ (clamped <=? hi) = true).
Proof.
  intros Hhi. pose proof (clamp_in_range hi x Hhi) as Hclamp. cbn zeta in *.
  change (n_max (lit 0) (n_min hi x)) with (JS.math_max 0 (JS.math_min hi x)).
  destruct (is_nan x); [now left | now right].
Qed.

End DetectionFacts.

Section DetectionProperties.
Import Canvas Detection.
Local Open Scope float_scope.

(** X9: the mock detector throws on a service that is not initialized; on
    one that is, in the doubles of the program and whatever [Math.cos],
    [Math.sin] and [Math.random] return, NaN and the infinities included,
    it returns one face with 68 landmarks, each with [z = 0] and, for an
    image whose width and height are not below 0 as numbers, each with an
    [x] that is NaN or lies between 0 and the width and a [y] that is NaN
    or lies between 0 and the height. *)
Theorem detectFaces_stays_in_image (env : Environment float) (imageElement : Source)
    (s : State) :
  let w := lit (N := float) (inject_Z (source_width imageElement)) in
  let h := lit (N := float) (inject_Z (source_height imageElement)) in
  (isInitialized s = false ->
   detectFaces env imageElement s
   = Throw (Error "Face detection service not initialized")) /\
  (isInitialized s = true ->
   exists face,
     detectFaces env imageElement s = Ok [face] /\
     length (landmarks face) = 68%nat /\
     Forall (fun p => lm_z p = Some 0) (landmarks face) /\
     ((0 <=? w) = true ->
      Forall (fun p => is_nan (lm_x p) = true \/
                       ((0 <=? lm_x p) = true /\ (lm_x p <=? w) = true))
        (landmarks face)) /\
     ((0 <=? h) = true ->
      Forall (fun p => is_nan (lm_y p) = true \/
                       ((0 <=? lm_y p) = true /\ (lm_y p <=? h) = true))
        (landmarks face))).
Proof.
  intros w h. unfold detectFaces.
  split; intros Hinit; rewrite Hinit; cbn [negb]; [reflexivity|].
  eexists. split; [reflexivity|]. cbn [landmarks]. fold w h.
  unfold generateMockLandmarks.
  split; [now rewrite length_map, length_seq|].
  split; [apply Forall_map, Forall_forall; intros i _; reflexivity|].
  split; intros Hsize; apply Forall_map, Forall_forall; intros i _;
    cbn [mock_landmark lm_x lm_y]; now apply clamp_nan_or_in_range.
Qed.

End DetectionProperties.

Section DetectionRuns.
Import Canvas Detection DetectionExample.
Local Open Scope float_scope.

Lemma detectFaces_stays_in_image_witness :
  exists face,
    detectFaces float_env frame ready = Ok [face] /\
    length (landmarks face) = 68%nat /\
    Forall (fun p => is_nan (lm_x p) = true \/
                     ((0 <=? lm_x p) = true /\ (lm_x p <=? 640) = true))
      (landmarks face).
Proof.
  destruct (detectFaces_stays_in_image float_env frame ready) as [_ Hready].
  destruct (Hready eq_refl) as (face & Hface & Hlen & _ & Hx & _).
  exists face. split; [exact Hface|]. split; [exact Hlen|].
  exact (Hx eq_refl).
Defined.

End DetectionRuns.

(** ** The hook: the best match *)

Section HookFacts.
Import Canvas Database Hook.
Local Open Scope float_scope.

(** What the loop returns: the best found before it, when no face that is
    left scores above it; otherwise a face that is left and scores above
    it, below which no face that is left scores, and which every face
    before it fails to reach. *)
Lemma best_match_loop_spec (random : nat -> float) (expressions : gmap string float)
    (faces : list FaceData) (k : nat) (bestMatch : option FaceData) (bestScore : float) :
  let result := best_match_loop random expressions faces k bestMatch bestScore in
  let score j face := score_of (random (k + j)%nat) expressions face in
  (result = bestMatch /\
   forall j face, faces !! j = Some face -> (bestScore <? score j face) = false) \/
  (exists i best,
     faces !! i = Some best /\ result = Some best /\ (bestScore <? score i best) = true /\
     forall j face, faces !! j = Some face ->
       (score i best <? score j face) = false /\
       ((j < i)%nat -> (score i best <=? score j face) = false)).
Proof.
  revert k bestMatch bestScore.
  induction faces as [|faceData rest IH]; intros k bestMatch bestScore; cbn zeta.
  - left. split; [reflexivity|]. intros j face Hj. discriminate Hj.
  - cbn [best_match_loop].
    set (score0 := score_of (random k) expressions faceData).
    assert (Hshift : forall j, (S k + j = k + S j)%nat) by (intros; lia).
    assert (Hnot : forall a b, (a <=? b) = false -> (a <? b) = false).
    { intros a b Hab. destruct (a <? b) eqn:Hlt; [|reflexivity].
      apply ltb_leb in Hlt. congruence. }
    change (n_lt bestScore score0) with (bestScore <? score0).
    destruct (bestScore <? score0) eqn:Hlt.
    + destruct (IH (S k) (Some faceData) score0)
        as [[Hres Hall] | (i & best & Hi & Hres & Hbest & Hall)].
      * right. exists 0%nat, faceData. rewrite Nat.add_0_r. fold score0.
        split; [reflexivity|]. split; [exact Hres|]. split; [exact Hlt|].
        intros [|j] face Hj.
        -- injection Hj as <-. rewrite Nat.add_0_r. fold score0.
           split; [|lia]. destruct (score0 <? score0) eqn:Hself; [|reflexivity].
           pose proof (ltb_not_leb _ _ Hself) as Hle.
           rewrite (ltb_leb _ _ Hself) in Hle. discriminate Hle.
        -- specialize (Hall j face Hj). rewrite Hshift in Hall. split; [exact Hall|lia].
      * right. exists (S i), best. rewrite Hshift in Hbest.
        split; [exact Hi|]. split; [exact Hres|].
        split; [exact (ltb_leb_trans _ _ _ Hlt (ltb_leb _ _ Hbest))|].
        intros [|j] face Hj.
        -- injection Hj as <-. rewrite Nat.add_0_r. fold score0.
           pose proof (ltb_not_leb _ _ Hbest) as Hle.
           split; [now apply Hnot | now intros _].
        -- destruct (Hall j face Hj) as [Hle Hless]. rewrite !Hshift in Hle, Hless.
           split; [exact Hle|]. intros Hji. apply Hless. lia.
    + destruct (IH (S k) bestMatch bestScore)
        as [[Hres Hall] | (i & best & Hi & Hres & Hbest & Hall)].
      * left. split; [exact Hres|].
        intros [|j] face Hj.
        -- injection Hj as <-. rewrite Nat.add_0_r. exact Hlt.
        -- specialize (Hall j face Hj). now rewrite Hshift in Hall.
      * right. exists (S i), best. rewrite Hshift in Hbest.
        split; [exact Hi|]. split; [exact Hres|]. split; [exact Hbest|].
        intros [|j] face Hj.
        -- injection Hj as <-. rewrite Nat.add_0_r. fold score0.
           assert (Hle : (score_of (random (k + S i)%nat) expressions best <=? score0)
                         = false).
           { destruct (_ <=? score0) eqn:Hle; [|reflexivity].
             pose proof (ltb_leb_trans _ _ _ Hbest Hle) as Hcontra. congruence. }
           split; [now apply Hnot | now intros _].
        -- destruct (Hall j face Hj) as [Hle Hless]. rewrite !Hshift in Hle, Hless.
           split; [exact Hle|]. intros Hji. apply Hless. lia.
Qed.

End HookFacts.

Section HookProperties.
Import Canvas Database Hook.
Local Open Scope float_scope.

(** X11: in the doubles of the program and whatever [Math.random]
    returns, [findBestMatch] returns null exactly when no face of the
    database scores above 0, NaN scoring above nothing; otherwise it
    returns a face of the database that scores above 0, below which no
    face scores, and which every face before it in the database fails to
    reach: the first of the faces of the highest score. *)
Theorem findBestMatch_is_the_best (random : nat -> float) (detectedFace : DetectedFace float) :
  let score j face := score_of (random j) (h_expressions detectedFace) face in
  match findBestMatch random detectedFace with
  | None =>
      forall (j : nat) (face : FaceData),
        faceDatabase !! j = Some face -> (0 <? score j face) = false
  | Some best =>
      exists i : nat,
        faceDatabase !! i = Some best /\ (0 <? score i best) = true /\
        forall (j : nat) (face : FaceData), faceDatabase !! j = Some face ->
          (score i best <? score j face) = false /\
          ((j < i)%nat -> (score i best <=? score j face) = false)
  end.
Proof.
  cbn zeta. unfold findBestMatch.
  destruct (best_match_loop_spec random (h_expressions detectedFace) faceDatabase 0 None
              (lit 0)) as [[-> Hall] | (i & best & Hi & -> & Hbest & Hall)].
  - exact Hall.
  - exists i. split; [exact Hi|]. split; [exact Hbest | exact Hall].
Qed.

End HookProperties.

Section HookRuns.
Import Canvas Database Hook.

(** X12: a face that comes from the mock detector gets no boost in
    [findBestMatch]: its only expression is neutral with confidence 0.8,
    which is not above the threshold 0.8, so the score of every face of the
    database is its random part alone. *)
Theorem detector_faces_get_no_boost (env : Detection.Environment float)
    (service : option Detection.State) (input : Source)
    (faces : list (DetectedFace float)) (face : DetectedFace float)
    (random : float) (faceData : FaceData) :
  detectFaces env service input = Ok faces -> In face faces ->
  score_of random (h_expressions face) faceData = (random * 0.5 + 0.5)%float.
Proof.
  unfold detectFaces, Detection.detectFaces.
  destruct service as [s|]; [|discriminate].
  destruct (Detection.isInitialized s); cbn [negb]; [|discriminate].
  intros Hfaces. injection Hfaces as <-.
  intros [<- | []]. cbn [convert h_expressions expression].
  unfold score_of.
  match goal with
  | |- context [exceeds ?e "happy" ?t] =>
      replace (exceeds e "happy" t) with false by (vm_compute; reflexivity)
  end.
  match goal with
  | |- context [exceeds ?e "neutral" ?t] =>
      replace (exceeds e "neutral" t) with false by (vm_compute; reflexivity)
  end.
  match goal with
  | |- context [exceeds ?e "surprised" ?t] =>
      replace (exceeds e "surprised" t) with false by (vm_compute; reflexivity)
  end.
  cbn [andb]. vm_compute (lit 0.5). reflexivity.
Qed.

Lemma detector_faces_get_no_boost_witness :
  length DetectionExample.float_faces = 1%nat /\
  Forall (fun face =>
            score_of 0.25%float (h_expressions face)
              {| fd_id := "mona-lisa"; fd_name := "Mona Lisa";
                 description := "Leonardo da Vinci's masterpiece";
                 category := "historical";
                 thumbnailPath := "/faces/mona-lisa/thumb.svg";
                 imagePath := "/faces/mona-lisa/thumb.svg";
                 metadata := {| created := "2024-01-01"; md_quality := "high";
                                resolution := "512x512";
                                tags := ["art"; "renaissance"; "mysterious"; "classic"] |} |}
            = 0.625%float)
    DetectionExample.float_faces.
Proof.
  split; [reflexivity|].
  apply Forall_forall. intros face Hin. apply list_elem_of_In in Hin.
  rewrite (detector_faces_get_no_boost DetectionExample.float_env
             (Some DetectionExample.ready) DetectionExample.frame
             DetectionExample.float_faces face 0.25%float _ eq_refl Hin).
  vm_compute. reflexivity.
Defined.

End HookRuns.


(** ** The call: early failures, the life cycle *)

Section CallFacts.
Import Canvas Service.
Context {N : Type} `{Number N}.

Lemma snd_bind {A B : Type} (m : M N A) (k : A -> M N B) (c : Canvas N) :
  snd ((m ≫= k) c)
  = match fst (m c) with
    | Ok a => snd (k a (snd (m c)))
    | Throw _ => snd (m c)
    end.
Proof.
  unfold mbind, canvas_bind, Canvas.bind. now destruct (m c) as [[a|e] c1].
Qed.

(** The flag after a call: the service initializes itself when it has to
    and can. *)
Lemma swapFace_isInitialized (env : Environment) (source : Source)
    (face : DetectedFace N) (target : TargetFace) (config : FaceSwapConfig N)
    (s : State N) :
  isInitialized (snd (swapFace env source face target config s)) = initializes env s.
Proof.
  unfold swapFace, initializes, initialize.
  destruct (isInitialized s) eqn:Hi; cbn [orb].
  - destruct (loadImage env _) as [img|]; [|exact Hi].
    now destruct (compose source face img config (canvas s)) as [[d|e] c2].
  - destruct (tf_ready env) as [[]|e]; cbn [is_ok]; [|exact Hi].
    destruct (loadImage env _) as [img|]; [|reflexivity].
    cbn [canvas isInitialized].
    now destruct (compose _ _ _ _ _) as [[d|e] c2].
Qed.

End CallFacts.

Section CallProperties.
Import Canvas Service.
Context {N : Type} `{Number N}.

(** X14: a call that fails before the compositing leaves the canvas as it
    was: when [tf.ready()] is rejected on a service that is not
    initialized, the result carries the message of the rejection and the
    service is unchanged; when the target image does not load, the result
    carries the message 'Face swap failed', since an error event is not an
    [Error], and the canvas keeps its size and its surface. *)
Theorem early_failures_keep_the_canvas (env : Environment) (source : Source)
    (face : DetectedFace N) (target : TargetFace) (config : FaceSwapConfig N)
    (s : State N) :
  (forall e, isInitialized s = false -> tf_ready env = Throw e ->
     swapFace env source face target config s
     = ({| success := false; imageData := None; error := Some (error_message e) |}, s)) /\
  (initializes env s = true -> loadImage env (target_url target face) = None ->
     fst (swapFace env source face target config s)
     = {| success := false; imageData := None; error := Some "Face swap failed" |} /\
     cv_width (canvas (snd (swapFace env source face target config s)))
     = cv_width (canvas s) /\
     cv_height (canvas (snd (swapFace env source face target config s)))
     = cv_height (canvas s) /\
     cv_surface (canvas (snd (swapFace env source face target config s)))
     = cv_surface (canvas s)).
Proof.
  unfold swapFace, initializes, initialize, target_url. split.
  - intros e Hi Hready. now rewrite Hi, Hready.
  - intros Hinit Hload.
    destruct (isInitialized s); cbn [orb] in Hinit.
    + rewrite Hload. now repeat split.
    + destruct (tf_ready env) as [[]|e]; [|discriminate Hinit].
      cbn [canvas isInitialized]. rewrite Hload. now repeat split.
Qed.

(** X15: [dispose] clears the flag and nothing else; a call on a disposed
    service returns what the same call returns on a new service, and after
    any call the service is ready exactly when it was ready before or
    [tf.ready()] resolved, whether the call succeeded or not. *)
Theorem dispose_then_swap (env : Environment) (source : Source)
    (face : DetectedFace N) (target : TargetFace) (config : FaceSwapConfig N)
    (s : State N) :
  isReady (dispose s) = false /\
  getCanvas (dispose s) = getCanvas s /\
  fst (swapFace env source face target config (dispose s))
  = fst (swapFace env source face target config new_service) /\
  isReady (snd (swapFace env source face target config (dispose s)))
  = is_ok (tf_ready env) /\
  isReady (snd (swapFace env source face target config s))
  = isReady s || is_ok (tf_ready env).
Proof.
  split; [reflexivity|]. split; [reflexivity|].
  split; [now apply swapFace_result_flag|].
  unfold isReady. rewrite !swapFace_isInitialized. now split.
Qed.

(** X16: when [tf.ready()] resolves, what a call returns does not depend
    on the service it is made on: nothing of the earlier calls, of the
    canvas or of the flag reaches the result. *)
Theorem swapFace_forgets_the_service (env : Environment) (source : Source)
    (face : DetectedFace N) (target : TargetFace) (config : FaceSwapConfig N)
    (s s' : State N) :
  tf_ready env = Ok tt ->
  fst (swapFace env source face target config s)
  = fst (swapFace env source face target config s').
Proof.
  intros Hready. unfold swapFace, initialize. rewrite Hready.
  destruct (isInitialized s), (isInitialized s');
    destruct (loadImage env _) as [img|]; try reflexivity;
    cbn [canvas isInitialized];
    repeat match goal with
           | |- context [compose source face img config ?c1] =>
               assert_fails (constr_eq c1 (new_canvas (N := N)));
               change (compose source face img config c1)
                 with (compose source face img config new_canvas)
           end;
    now destruct (compose source face img config new_canvas) as [[d|e] c2].
Qed.

End CallProperties.

(** ** The mask: a gradient that cannot be created *)

Section FeatherFacts.
Import Canvas Service.
Context {N : Type} `{Number N}.

Lemma bind_throw {A B : Type} (m : M N A) (k : A -> M N B) (c c' : Canvas N)
    (e : Exception) :
  m c = (Throw e, c') -> (m ≫= k) c = (Throw e, c').
Proof. intros Hm. unfold mbind, canvas_bind, Canvas.bind. now rewrite Hm. Qed.

(** The creation of the gradient neither reads nor changes the canvas. *)
Lemma feather_gradient_pure (region : BoundingBox N) (amount : N) (c : Canvas N) :
  feather_gradient region amount c
  = (fst (feather_gradient region amount new_canvas), c).
Proof. unfold feather_gradient, createRadialGradient. run_method; reflexivity. Qed.

(** What the creation throws. *)
Lemma feather_gradient_exception (region : BoundingBox N) (amount : N) (c : Canvas N)
    (e : Exception) :
  fst (feather_gradient region amount c) = Throw e ->
  e = TypeError \/ e = DOMException "IndexSizeError".
Proof.
  unfold feather_gradient, createRadialGradient.
  unfold mbind, mret, canvas_bind, canvas_ret, Canvas.bind, Canvas.ret, throw.
  destruct (negb _); cbn [fst]; [intros [= <-]; now left|].
  destruct (_ || _)%bool; cbn [fst]; [intros [= <-]; now right|discriminate].
Qed.

Lemma performAdvancedSwap_fails (face : DetectedFace N) (img : Image)
    (config : FaceSwapConfig N) (c : Canvas N) (e : Exception) :
  (lit 0 <? featherAmount config)%num = true ->
  fst (feather_gradient (boundingBox face) (featherAmount config) new_canvas) = Throw e ->
  performAdvancedSwap face img config c = (Throw e, c).
Proof.
  intros Hpos Hthrow.
  assert (Hbody : forall c1, swap_body face img config c1 = (Throw e, c1)).
  { intros c1. unfold swap_body. apply bind_throw. rewrite Hpos.
    unfold applyFeathering. apply bind_throw.
    now rewrite feather_gradient_pure, Hthrow. }
  rewrite performAdvancedSwap_unfold.
  unfold mbind, canvas_bind, Canvas.bind, save, try_finally.
  rewrite Hbody. cbn [snd restore cv_saved cv_width cv_height cv_state cv_surface].
  now destruct c.
Qed.

End FeatherFacts.

Section FeatherProperties.
Import Canvas Service.
Context {N : Type} `{Number N}.

(** X17: when the feather amount is above 0 and the gradient of the mask
    cannot be created, the compositing throws what the creation throws, a
    TypeError or an IndexSizeError, before anything is drawn and leaves the
    canvas as it found it, so that no call succeeds; a call that got as far
    as the compositing returns the failure with the message of that
    exception and leaves on the canvas the source frame alone.  This holds
    of every arithmetic, that of the program included. *)
Theorem failed_gradient_fails_the_call (face : DetectedFace N) (config : FaceSwapConfig N)
    (e : Exception) :
  (lit 0 <? featherAmount config)%num = true ->
  fst (feather_gradient (boundingBox face) (featherAmount config) new_canvas) = Throw e ->
  (e = TypeError \/ e = DOMException "IndexSizeError") /\
  (forall img c, performAdvancedSwap face img config c = (Throw e, c)) /\
  (forall env source target s,
     success (fst (swapFace env source face target config s)) = false /\
     imageData (fst (swapFace env source face target config s)) = None) /\
  (forall env source target s img,
     initializes env s = true -> loadImage env (target_url target face) = Some img ->
     source_draws (N := N) source = true ->
     error (fst (swapFace env source face target config s)) = Some (error_message e) /\
     cv_surface (canvas (snd (swapFace env source face target config s)))
     = frame_only source).
Proof.
  intros Hpos Hthrow.
  split; [exact (feather_gradient_exception _ _ _ _ Hthrow)|].
  split; [intros img c; now apply performAdvancedSwap_fails|].
  assert (Hcompose : forall source img c,
            compose source face img config c
            = (match fst (drawImage_at source (lit 0) (lit 0) new_canvas) with
               | Ok _ => Throw e
               | Throw e' => Throw e'
               end,
               snd ((set_canvas_width (source_width source);;
                     set_canvas_height (source_height source);;
                     drawImage_at source (lit 0) (lit 0)) new_canvas))).
  { intros source img c.
    set (c0 := {| cv_width := source_width source; cv_height := source_height source;
                  cv_state := default_state; cv_saved := []; cv_surface := [] |}).
    change (compose source face img config c)
      with ((drawImage_at source (lit 0) (lit 0);;
             performAdvancedSwap face img config;;
             c ← canvas_now;
             getImageData (lit 0) (lit 0) (lit (inject_Z (cv_width c)))
               (lit (inject_Z (cv_height c)))) c0).
    change (snd ((set_canvas_width (source_width source);;
                  set_canvas_height (source_height source);;
                  drawImage_at source (lit 0) (lit 0)) new_canvas))
      with (snd (drawImage_at source (lit 0) (lit 0) c0)).
    rewrite (drawImage_at_outcome source new_canvas c0).
    unfold mbind at 1. unfold canvas_bind, Canvas.bind.
    destruct (drawImage_at source (lit 0) (lit 0) c0) as [[[]|e'] c1]; cbn [fst snd];
      [|reflexivity].
    apply bind_throw. now apply performAdvancedSwap_fails. }
  split.
  - intros env source target s. unfold swapFace.
    destruct (initialize env s) as [[[]|e'] s1]; [|now split].
    destruct (loadImage env _) as [img|]; [|now split].
    rewrite Hcompose.
    now destruct (fst (drawImage_at source (lit 0) (lit 0) new_canvas)).
  - intros env source target s img Hinit Hload Hdraws.
    unfold swapFace, initializes, initialize, target_url, source_draws, frame_only in *.
    destruct (isInitialized s); cbn [orb] in Hinit.
    + rewrite Hload, Hcompose.
      destruct (fst (drawImage_at source (lit 0) (lit 0) new_canvas)) as [[]|e'];
        [now split | discriminate Hdraws].
    + destruct (tf_ready env) as [[]|e']; [|discriminate Hinit].
      cbn [canvas isInitialized]. rewrite Hload, Hcompose.
      destruct (fst (drawImage_at source (lit 0) (lit 0) new_canvas)) as [[]|e'];
        [now split | discriminate Hdraws].
Qed.

End FeatherProperties.

(** ** The result of a call that succeeds *)

Section ResultFacts.
Import Canvas Service.
Context {N : Type} `{Number N}.

(** The canvas after the compositing has the size of the source, and the
    result is read from it. *)
Lemma compose_reads_canvas (source : Source) (face : DetectedFace N) (img : Image)
    (config : FaceSwapConfig N) (c : Canvas N) :
  let c' := snd (compose source face img config c) in
  cv_width c' = source_width source /\
  cv_height c' = source_height source /\
  forall d, fst (compose source face img config c) = Ok d ->
    fst (getImageData (lit 0) (lit 0) (lit (inject_Z (source_width source)))
           (lit (inject_Z (source_height source))) c') = Ok d.
Proof.
  set (c0 := {| cv_width := source_width source; cv_height := source_height source;
                cv_state := default_state; cv_saved := []; cv_surface := [] |}).
  change (compose source face img config c)
    with ((drawImage_at source (lit 0) (lit 0);;
           performAdvancedSwap face img config;;
           c ← canvas_now;
           getImageData (lit 0) (lit 0) (lit (inject_Z (cv_width c)))
             (lit (inject_Z (cv_height c)))) c0).
  destruct (keeps_frame_drawImage source (lit 0) (lit 0)
              (lit (inject_Z (source_width source)))
              (lit (inject_Z (source_height source))) c0) as (Hw1 & Hh1 & _).
  fold (drawImage_at source (lit 0) (lit 0)) in Hw1, Hh1.
  cbn zeta. rewrite fst_bind, snd_bind.
  destruct (drawImage_at source (lit 0) (lit 0) c0) as [[[]|e] c1];
    cbn [fst snd] in *; [|split; [exact Hw1|]; split; [exact Hh1|discriminate]].
  pose proof (performAdvancedSwap_restores face img config c1) as (_ & _ & Hw2 & Hh2).
  cbn zeta in Hw2, Hh2. rewrite Hw1 in Hw2. rewrite Hh1 in Hh2.
  rewrite fst_bind, snd_bind.
  destruct (performAdvancedSwap face img config c1) as [[[]|e] c2];
    cbn [fst snd] in *; [|split; [exact Hw2|]; split; [exact Hh2|discriminate]].
  unfold mbind, canvas_bind, Canvas.bind, canvas_now.
  rewrite getImageData_canvas.
  split; [exact Hw2|]. split; [exact Hh2|].
  intros d Hd. rewrite <- Hd, Hw2, Hh2. reflexivity.
Qed.

End ResultFacts.

Section ResultProperties.
Import Canvas Service.
Context {N : Type} `{Number N}.
Local Open Scope Z_scope.

(** X18: the image data of a call that succeeds holds the surface of the
    canvas of the service as the call leaves it, and that canvas has the
    size of the source; its rectangle is the one [getImageData] makes of
    the numbers 0, 0, width and height of the source once each is
    converted to an integer, and neither extent is 0; the result carries no
    error.  When the conversion gives back 0 and the width and the height
    of the source, and these are not negative, the image data starts at
    the origin and has the width and the height of the source, both
    positive.  This holds of every arithmetic, that of the program
    included. *)
Theorem success_returns_the_canvas (env : Environment) (source : Source)
    (face : DetectedFace N) (target : TargetFace) (config : FaceSwapConfig N)
    (s : State N) :
  success (fst (swapFace env source face target config s)) = true ->
  let s' := snd (swapFace env source face target config s) in
  let o := extent (N := N) (lit 0) in
  let w := extent (N := N) (lit (inject_Z (source_width source))) in
  let h := extent (N := N) (lit (inject_Z (source_height source))) in
  imageData (fst (swapFace env source face target config s))
  = Some (Pixels (Z.min o (o + w)) (Z.min o (o + h)) (Z.abs w) (Z.abs h)
            (cv_surface (canvas s'))) /\
  error (fst (swapFace env source face target config s)) = None /\
  w <> 0 /\ h <> 0 /\
  cv_width (canvas s') = source_width source /\
  cv_height (canvas s') = source_height source /\
  (o = 0 -> w = source_width source -> h = source_height source ->
   0 <= source_width source -> 0 <= source_height source ->
   imageData (fst (swapFace env source face target config s))
   = Some (Pixels 0 0 (source_width source) (source_height source)
             (cv_surface (canvas s'))) /\
   0 < source_width source /\ 0 < source_height source).
Proof.
  unfold swapFace.
  destruct (initialize env s) as [[[]|e] s1]; [|discriminate].
  destruct (loadImage env _) as [img|]; [|discriminate].
  pose proof (compose_reads_canvas source face img config (canvas s1)) as (Hcw & Hch & Hread).
  destruct (compose source face img config (canvas s1)) as [[d|e] c2];
    cbn [fst snd success imageData error canvas] in *; [|discriminate].
  intros _. specialize (Hread d eq_refl).
  unfold extent. unfold getImageData in Hread.
  destruct (enforce_long (lit 0)) as [o|e0]; [|discriminate Hread].
  destruct (enforce_long (lit (inject_Z (source_width source)))) as [w|ew];
    [|discriminate Hread].
  destruct (enforce_long (lit (inject_Z (source_height source)))) as [h|eh];
    [|discriminate Hread].
  destruct ((w =? 0) || (h =? 0))%bool eqn:Hzero; [discriminate Hread|].
  cbn [fst] in Hread. injection Hread as <-.
  apply orb_false_elim in Hzero as [Hw0 Hh0]. apply Z.eqb_neq in Hw0, Hh0.
  split; [reflexivity|]. split; [reflexivity|].
  split; [exact Hw0|]. split; [exact Hh0|].
  split; [exact Hcw|]. split; [exact Hch|].
  intros -> -> -> Hw Hh.
  rewrite !Z.min_l, !Z.abs_eq by lia.
  split; [reflexivity|]. lia.
Qed.

End ResultProperties.

(** ** Colour matching: exceptions and the filter *)

Section FilterProperties.
Import Canvas Service.
Context {N : Type} `{Number N}.

(** X19: [applyColorMatching] never throws, whatever the region, and
    never returns with its contrast filter left on the context: the filter
    is 'none' when pixels were written and what it was otherwise, and the
    rest of the drawing state, the saved states and the size of the canvas
    are as before. *)
Theorem colour_matching_resets_filter (region : BoundingBox N) (c : Canvas N) :
  let c' := snd (applyColorMatching region c) in
  fst (applyColorMatching region c) = Ok tt /\
  (filter (cv_state c') = "none" \/
   filter (cv_state c') = filter (cv_state c) /\ cv_surface c' = cv_surface c) /\
  globalCompositeOperation (cv_state c') = globalCompositeOperation (cv_state c) /\
  globalAlpha (cv_state c') = globalAlpha (cv_state c) /\
  fillStyle (cv_state c') = fillStyle (cv_state c) /\
  imageSmoothingEnabled (cv_state c') = imageSmoothingEnabled (cv_state c) /\
  imageSmoothingQuality (cv_state c') = imageSmoothingQuality (cv_state c) /\
  cv_saved c' = cv_saved c /\ cv_width c' = cv_width c /\ cv_height c' = cv_height c.
Proof.
  cbn zeta. split; [apply applyColorMatching_ok|].
  unfold applyColorMatching, try_catch, getImageData, putImageData, set_filter.
  unfold mbind, mret, canvas_bind, canvas_ret, Canvas.bind, Canvas.ret, modify, throw.
  destruct (enforce_long (bb_x region)) as [x|e]; [|cbn; now auto 12].
  destruct (enforce_long (bb_y region)) as [y|e]; [|cbn; now auto 12].
  destruct (enforce_long (bb_width region)) as [w|e]; [|cbn; now auto 12].
  destruct (enforce_long (bb_height region)) as [h|e]; [|cbn; now auto 12].
  destruct (_ || _)%bool; cbn; now auto 12.
Qed.

End FilterProperties.


(** ** Image smoothing *)

Section SmoothingFacts.
Import Canvas Service.
Context {N : Type} `{Number N}.

Lemma keeps_smoothing_ret {A : Type} (a : A) : keeps_smoothing (Canvas.ret a : M N A).
Proof. intros q c Hc. exact Hc. Qed.

Lemma keeps_smoothing_mret {A : Type} (a : A) : keeps_smoothing (mret a : M N A).
Proof. apply keeps_smoothing_ret. Qed.

Lemma keeps_smoothing_throw {A : Type} (e : Exception) :
  keeps_smoothing (throw e : M N A).
Proof. intros q c Hc. exact Hc. Qed.

Lemma keeps_smoothing_modify (f : DrawingState N -> DrawingState N) :
  (forall st, smoothing (f st) = smoothing st) -> keeps_smoothing (modify f).
Proof.
  intros Hf q c (Hst & Hsaved & Hsurf). repeat split; cbn; try assumption.
  now rewrite Hf.
Qed.

Lemma keeps_smoothing_paint (op : DrawingState N -> Op N) :
  (forall st, op_state (op st) = Some st) -> keeps_smoothing (paint op).
Proof.
  intros Hop q c (Hst & Hsaved & Hsurf). repeat split; cbn; try assumption.
  constructor; [|assumption]. unfold drawn_with. now rewrite Hop.
Qed.

Lemma keeps_smoothing_save : keeps_smoothing (save (N := N)).
Proof.
  intros q c (Hst & Hsaved & Hsurf). repeat split; cbn; try assumption.
  now constructor.
Qed.

Lemma keeps_smoothing_restore : keeps_smoothing (restore (N := N)).
Proof.
  intros q c (Hst & Hsaved & Hsurf). unfold restore.
  destruct (cv_saved c) as [|st rest] eqn:Hs.
  - cbn [snd]. unfold smoothing_is. rewrite Hs. now repeat split.
  - inversion Hsaved; subst. now repeat split.
Qed.

Lemma keeps_smoothing_bind {A B : Type} (m : M N A) (k : A -> M N B) :
  keeps_smoothing m -> (forall a, keeps_smoothing (k a)) -> keeps_smoothing (m ≫= k).
Proof.
  intros Hm Hk q c Hc. unfold mbind, canvas_bind, Canvas.bind.
  specialize (Hm q c Hc).
  destruct (m c) as [[a|e] c1]; cbn [snd] in *; [now apply Hk | exact Hm].
Qed.

Lemma keeps_smoothing_try_catch {A : Type} (m : M N A) (handler : Exception -> M N A) :
  keeps_smoothing m -> (forall e, keeps_smoothing (handler e)) ->
  keeps_smoothing (try_catch m handler).
Proof.
  intros Hm Hk q c Hc. unfold try_catch. specialize (Hm q c Hc).
  destruct (m c) as [[a|e] c1]; cbn [snd] in *; [exact Hm | now apply Hk].
Qed.

Lemma keeps_smoothing_try_finally {A : Type} (m : M N A) (fin : M N unit) :
  keeps_smoothing m -> keeps_smoothing fin -> keeps_smoothing (try_finally m fin).
Proof.
  intros Hm Hf q c Hc. unfold try_finally. specialize (Hm q c Hc).
  destruct (m c) as [o c1]; cbn [snd] in *. now apply Hf.
Qed.

Lemma keeps_smoothing_if {A : Type} (b : bool) (m1 m2 : M N A) :
  keeps_smoothing m1 -> keeps_smoothing m2 -> keeps_smoothing (if b then m1 else m2).
Proof. now destruct b. Qed.

Lemma keeps_smoothing_set_globalCompositeOperation (v : JS.value string) :
  keeps_smoothing (set_globalCompositeOperation (N := N) v).
Proof.
  unfold set_globalCompositeOperation.
  destruct v as [s|k]; [destruct (decide _)|]; try apply keeps_smoothing_ret.
  now apply keeps_smoothing_modify.
Qed.

Lemma keeps_smoothing_set_globalAlpha (v : JS.value N) :
  keeps_smoothing (set_globalAlpha v).
Proof.
  unfold set_globalAlpha.
  destruct v as [a|k]; [destruct (in_unit_range a)|]; try apply keeps_smoothing_ret.
  now apply keeps_smoothing_modify.
Qed.

Lemma keeps_smoothing_set_fillStyle (s : FillStyle N) : keeps_smoothing (set_fillStyle s).
Proof. now apply keeps_smoothing_modify. Qed.

Lemma keeps_smoothing_set_filter (s : string) : keeps_smoothing (set_filter (N := N) s).
Proof. now apply keeps_smoothing_modify. Qed.

Lemma keeps_smoothing_fillRect (x y w h : N) : keeps_smoothing (fillRect x y w h).
Proof.
  unfold fillRect. repeat apply keeps_smoothing_if; try apply keeps_smoothing_ret.
  now apply keeps_smoothing_paint.
Qed.

Lemma keeps_smoothing_drawImage (image : Source) (dx dy dw dh : N) :
  keeps_smoothing (drawImage image dx dy dw dh).
Proof.
  unfold drawImage. apply keeps_smoothing_if; [apply keeps_smoothing_ret|].
  destruct (usable image) as [[|]|e];
    [|apply keeps_smoothing_ret|apply keeps_smoothing_throw].
  apply keeps_smoothing_if; [apply keeps_smoothing_ret|]. now apply keeps_smoothing_paint.
Qed.

Lemma keeps_smoothing_createRadialGradient (x0 y0 r0 x1 y1 r1 : N) :
  keeps_smoothing (createRadialGradient x0 y0 r0 x1 y1 r1).
Proof.
  unfold createRadialGradient.
  repeat apply keeps_smoothing_if;
    first [apply keeps_smoothing_throw | apply keeps_smoothing_ret].
Qed.

Lemma keeps_smoothing_getImageData (sx sy sw sh : N) :
  keeps_smoothing (getImageData sx sy sw sh).
Proof. intros q c Hc. now rewrite getImageData_canvas. Qed.

Lemma keeps_smoothing_putImageData (d : ImageData N) (dx dy : N) :
  keeps_smoothing (putImageData d dx dy).
Proof.
  unfold putImageData.
  destruct (enforce_long dx) as [x|e]; [destruct (enforce_long dy) as [y|e]|];
    try apply keeps_smoothing_throw.
  intros q c (Hst & Hsaved & Hsurf). repeat split; cbn; try assumption.
  constructor; [exact I | assumption].
Qed.

Lemma keeps_smoothing_applyFeathering (region : BoundingBox N) (amount : N) :
  keeps_smoothing (applyFeathering region amount).
Proof.
  unfold applyFeathering, feather_gradient.
  repeat (apply keeps_smoothing_bind; [|intros ?]);
    first [ apply keeps_smoothing_createRadialGradient
          | apply keeps_smoothing_mret
          | apply keeps_smoothing_set_globalCompositeOperation
          | apply keeps_smoothing_set_fillStyle
          | apply keeps_smoothing_fillRect ].
Qed.

Lemma keeps_smoothing_applyColorMatching (region : BoundingBox N) :
  keeps_smoothing (applyColorMatching region).
Proof.
  unfold applyColorMatching.
  apply keeps_smoothing_try_catch; [|intros ?; apply keeps_smoothing_mret].
  repeat (apply keeps_smoothing_bind; [|intros ?]);
    first [ apply keeps_smoothing_getImageData
          | apply keeps_smoothing_set_filter
          | apply keeps_smoothing_putImageData ].
Qed.

Lemma keeps_smoothing_performAdvancedSwap (face : DetectedFace N) (img : Image)
    (config : FaceSwapConfig N) :
  keeps_smoothing (performAdvancedSwap face img config).
Proof.
  unfold performAdvancedSwap, swap_body.
  apply keeps_smoothing_bind; [apply keeps_smoothing_save | intros _].
  apply keeps_smoothing_try_finally; [|apply keeps_smoothing_restore].
  repeat (apply keeps_smoothing_bind; [|intros ?]);
    first [ apply keeps_smoothing_if;
            first [ apply keeps_smoothing_applyFeathering
                  | apply keeps_smoothing_applyColorMatching
                  | apply keeps_smoothing_mret ]
          | apply keeps_smoothing_set_globalCompositeOperation
          | apply keeps_smoothing_set_globalAlpha
          | apply keeps_smoothing_drawImage ].
Qed.

(** The canvas after the compositing: everything on it was drawn with the
    smoothing of a context that has just been reset. *)
Lemma compose_smoothing (source : Source) (face : DetectedFace N) (img : Image)
    (config : FaceSwapConfig N) (c : Canvas N) :
  smoothing_is (true, "low") (snd (compose source face img config c)).
Proof.
  set (c0 := {| cv_width := source_width source; cv_height := source_height source;
                cv_state := default_state; cv_saved := []; cv_surface := [] |}).
  change (compose source face img config c)
    with ((drawImage_at source (lit 0) (lit 0);;
           performAdvancedSwap face img config;;
           c ← canvas_now;
           getImageData (lit 0) (lit 0) (lit (inject_Z (cv_width c)))
             (lit (inject_Z (cv_height c)))) c0).
  assert (Hkeeps : keeps_smoothing
                     (drawImage_at source (lit 0) (lit 0);;
                      performAdvancedSwap face img config;;
                      c ← canvas_now;
                      getImageData (lit 0) (lit 0) (lit (inject_Z (cv_width c)))
                        (lit (inject_Z (cv_height c))))).
  { unfold drawImage_at.
    apply keeps_smoothing_bind; [apply keeps_smoothing_drawImage | intros _].
    apply keeps_smoothing_bind; [apply keeps_smoothing_performAdvancedSwap | intros _].
    apply keeps_smoothing_bind; [|intros c1; apply keeps_smoothing_getImageData].
    intros q c1 Hc1. exact Hc1. }
  apply Hkeeps. now repeat split.
Qed.

Lemma swapFace_surface_smoothing (env : Environment) (source : Source)
    (face : DetectedFace N) (target : TargetFace) (config : FaceSwapConfig N)
    (s : State N) :
  Forall (drawn_with (true, "low")) (cv_surface (canvas s)) ->
  Forall (drawn_with (true, "low"))
    (cv_surface (canvas (snd (swapFace env source face target config s)))).
Proof.
  intros Hs. unfold swapFace, initialize.
  destruct (isInitialized s).
  - destruct (loadImage env _) as [img|]; [|exact Hs].
    pose proof (compose_smoothing source face img config (canvas s)) as (_ & _ & Hc).
    now destruct (compose source face img config (canvas s)) as [[d|e] c2].
  - destruct (tf_ready env) as [[]|e]; [|exact Hs].
    cbn [canvas isInitialized].
    destruct (loadImage env _) as [img|]; [|exact Hs].
    set (c1 := snd (setupCanvasProcessing (canvas s))).
    pose proof (compose_smoothing source face img config c1) as (_ & _ & Hc).
    now destruct (compose source face img config c1) as [[d|e] c2].
Qed.

End SmoothingFacts.

Section SmoothingProperties.
Import Canvas Service.
Context {N : Type} `{Number N}.

(** X20: the smoothing quality 'high' that [initialize] sets never
    reaches a drawing: each call gives the canvas the size of the source
    first, which resets the context, so after any sequence of calls on a
    new service every operation on the surface of the canvas was issued
    with smoothing enabled and the smoothing quality 'low'. *)
Theorem smoothing_setup_is_undone (calls : list (Call N)) :
  (forall env (s : State N), isInitialized s = false -> tf_ready env = Ok tt ->
     imageSmoothingQuality (cv_state (canvas (snd (initialize env s)))) = "high") /\
  Forall (fun op => forall st, op_state op = Some st ->
            imageSmoothingEnabled st = true /\ imageSmoothingQuality st = "low")
    (cv_surface (canvas (after_calls calls new_service))).
Proof.
  split.
  { intros env s Hi Hready. unfold initialize. now rewrite Hi, Hready. }
  assert (Hall : forall s : State N,
            Forall (drawn_with (true, "low")) (cv_surface (canvas s)) ->
            Forall (drawn_with (true, "low")) (cv_surface (canvas (after_calls calls s)))).
  { induction calls as [|k calls IH]; intros s Hs; [exact Hs|].
    cbn [after_calls fold_left]. apply IH. unfold call.
    now apply swapFace_surface_smoothing. }
  eapply Forall_impl; [apply Hall; constructor|].
  intros op Hop st Hst. unfold drawn_with in Hop. rewrite Hst in Hop.
  injection Hop as H1 H2. now split.
Qed.

End SmoothingProperties.


(** ** The overlay: the state it is drawn under *)

Section OverlayFacts.
Import Canvas Service.
Context {N : Type} `{Number N}.

Lemma issues_surface {A : Type} (m : M N A) (c : Canvas N) :
  issues m (fun new => new = []) -> cv_surface (snd (m c)) = cv_surface c.
Proof. intros Hm. destruct (Hm c) as (new & Hnew & ->). exact Hnew. Qed.

(** [drawImage] adds nothing, or the draw under the current state. *)
Lemma drawImage_surface (image : Source) (dx dy dw dh : N) (c : Canvas N) :
  cv_surface (snd (drawImage image dx dy dw dh c)) = cv_surface c \/
  cv_surface (snd (drawImage image dx dy dw dh c))
  = DrawImage image dx dy dw dh (cv_state c) :: cv_surface c.
Proof.
  unfold drawImage.
  destruct (negb _); [now left|].
  destruct (usable image) as [[|]|e]; try (now left).
  destruct (_ || _)%bool; [now left | now right].
Qed.

Lemma blend_setters_ok (config : FaceSwapConfig N) (c : Canvas N) :
  fst (blend_setters config c) = Ok tt /\
  cv_surface (snd (blend_setters config c)) = cv_surface c.
Proof.
  unfold blend_setters. rewrite fst_bind, snd_bind, set_globalCompositeOperation_ok.
  split; [apply set_globalAlpha_ok|].
  rewrite (issues_surface _ _ (issues_nothing_set_globalAlpha _)).
  apply (issues_surface _ _ (issues_nothing_set_globalCompositeOperation _)).
Qed.

(** What follows the draw of the overlay adds only pixels written back. *)
Lemma after_overlay_issues (face : DetectedFace N) (config : FaceSwapConfig N) :
  issues (set_globalCompositeOperation (N := N) (JS.Val "source-over");;
          set_globalAlpha (JS.Val (lit 1));;
          if colorMatch config then applyColorMatching (boundingBox face) else mret tt)
    (fun new => Forall (fun op => is_put op = true) new).
Proof.
  apply issues_skip; [apply issues_nothing_set_globalCompositeOperation| |constructor].
  intros _.
  apply issues_skip; [apply issues_nothing_set_globalAlpha| |constructor].
  intros _. destruct (colorMatch config).
  - eapply issues_weaken; [apply applyColorMatching_issues|]. now intros new [Hall _].
  - eapply issues_weaken; [apply issues_nothing_ret|]. intros new ->. constructor.
Qed.

(** The operations the body of [performAdvancedSwap] adds, with the draw
    of the overlay spelled out. *)
Lemma swap_body_overlay (face : DetectedFace N) (img : Image) (config : FaceSwapConfig N)
    (c : Canvas N) :
  exists mask draw put,
    cv_surface (snd (swap_body face img config c)) = put ++ draw ++ mask ++ cv_surface c /\
    Forall (fun op => is_mask op = true) mask /\
    Forall (fun op => is_put op = true) put /\
    (draw = [] \/
     exists c1, draw = [overlay_draw face img (cv_state (snd (blend_setters config c1)))]).
Proof.
  set (pre := if (lit 0 <? featherAmount config)%num
              then applyFeathering (boundingBox face) (featherAmount config)
              else mret tt).
  assert (Hpre : exists mask, cv_surface (snd (pre c)) = mask ++ cv_surface c /\
                              Forall (fun op => is_mask op = true) mask).
  { unfold pre. destruct (lit 0 <? featherAmount config)%num.
    - destruct (applyFeathering_issues (boundingBox face) (featherAmount config) c)
        as (mask & Hmask & Hall & _). now exists mask.
    - exists []. split; [reflexivity|constructor]. }
  destruct Hpre as (mask & Hmask & Hall).
  unfold swap_body. fold pre. rewrite snd_bind.
  destruct (fst (pre c)) as [[]|e].
  2: { exists mask, [], []. split; [exact Hmask|]. split; [exact Hall|].
       split; [constructor | now left]. }
  set (c1 := snd (pre c)) in *.
  rewrite snd_bind, set_globalCompositeOperation_ok.
  rewrite snd_bind, set_globalAlpha_ok.
  set (c3 := snd (set_globalAlpha _ _)).
  assert (Hc3 : c3 = snd (blend_setters config c1)).
  { unfold c3, blend_setters. now rewrite snd_bind, set_globalCompositeOperation_ok. }
  assert (Hs3 : cv_surface c3 = cv_surface c1).
  { rewrite Hc3. apply blend_setters_ok. }
  rewrite snd_bind, drawImage_loaded_ok.
  match goal with
  | |- context [snd (drawImage ?i ?x ?y ?w ?h c3)] =>
      destruct (drawImage_surface i x y w h c3) as [Hd|Hd];
      set (c4 := snd (drawImage i x y w h c3)) in *
  end.
  - destruct (after_overlay_issues face config c4) as (put & Hput & Hputs).
    exists mask, [], put. rewrite Hput, Hd, Hs3, Hmask.
    split; [reflexivity|]. split; [exact Hall|]. split; [exact Hputs | now left].
  - destruct (after_overlay_issues face config c4) as (put & Hput & Hputs).
    exists mask, [overlay_draw face img (cv_state c3)], put.
    rewrite Hput, Hd, Hs3, Hmask.
    split; [reflexivity|]. split; [exact Hall|]. split; [exact Hputs|].
    right. exists c1. now rewrite Hc3.
Qed.

(** An operation the compositing adds that draws the overlay is the draw
    of the overlay, issued after the two assignments. *)
Lemma issued_overlay (face : DetectedFace N) (img : Image) (config : FaceSwapConfig N)
    (c : Canvas N) (op : Op N) :
  In op (issued (performAdvancedSwap face img config) c) -> is_overlay img op = true ->
  exists c1, op = overlay_draw face img (cv_state (snd (blend_setters config c1))).
Proof.
  unfold issued.
  destruct (performAdvancedSwap_surface face img config c) as (c0 & Hc0 & ->).
  destruct (swap_body_overlay face img config c0)
    as (mask & draw & put & -> & Hmask & Hput & Hdraw).
  rewrite Hc0, !app_assoc, length_app, Nat.add_sub, take_app_length, <- app_assoc.
  intros Hin Hov. apply in_app_or in Hin as [Hin|Hin].
  { rewrite Forall_forall in Hput. apply list_elem_of_In in Hin.
    specialize (Hput op Hin). destruct op; discriminate. }
  apply in_app_or in Hin as [Hin|Hin].
  - destruct Hdraw as [-> | (c1 & ->)]; [destruct Hin|].
    destruct Hin as [<-|[]]. now exists c1.
  - rewrite Forall_forall in Hmask. apply list_elem_of_In in Hin.
    specialize (Hmask op Hin). destruct op; discriminate.
Qed.

End OverlayFacts.

Section OverlayProperties.
Import Canvas Service.

Lemma blendModes_values (mode m : string) :
  blendModes !! mode = Some m ->
  getBlendMode mode = JS.Val m /\ m ∈ composite_operations.
Proof.
  intros Hm. unfold getBlendMode, JS.get. rewrite Hm. cbn [JS.or_default].
  destruct (decide (mode = "normal")) as [->|H1];
    [injection Hm as <-; split; [reflexivity|exact source_over_is_valid]|].
  destruct (decide (mode = "overlay")) as [->|H2];
    [injection Hm as <-; split;
       [reflexivity|unfold composite_operations; set_solver]|].
  destruct (decide (mode = "multiply")) as [->|H3];
    [injection Hm as <-; split;
       [reflexivity|unfold composite_operations; set_solver]|].
  rewrite blendModes_lookup_other in Hm by assumption. discriminate Hm.
Qed.

Lemma opacityMap_values (quality : string) (a : float) :
  opacityMap !! quality = Some a ->
  getBlendOpacity quality = JS.Val a /\ in_unit_range a = true.
Proof.
  intros Ha. unfold getBlendOpacity, JS.get. rewrite Ha. cbn [JS.or_default].
  destruct (decide (quality = "low")) as [->|H1];
    [vm_compute in Ha; injection Ha as <-; split; vm_compute; reflexivity|].
  destruct (decide (quality = "medium")) as [->|H2];
    [vm_compute in Ha; injection Ha as <-; split; vm_compute; reflexivity|].
  destruct (decide (quality = "high")) as [->|H3];
    [vm_compute in Ha; injection Ha as <-; split; vm_compute; reflexivity|].
  rewrite opacityMap_lookup_other in Ha by assumption. discriminate Ha.
Qed.

(** X21: for a blend mode and a quality of the tables, whatever the
    feathering did before and whatever state the context was in, the
    overlay is drawn at the rectangle of the transform under the composite
    operation the table gives the blend mode and the opacity the table
    gives the quality. *)
Theorem overlay_is_drawn_as_configured (face : DetectedFace float) (img : Image)
    (config : FaceSwapConfig float) (c : Canvas float) (m : string) (a : float)
    (op : Op float) :
  blendModes !! blendMode config = Some m ->
  opacityMap !! quality config = Some a ->
  In op (issued (performAdvancedSwap face img config) c) ->
  is_overlay img op = true ->
  exists st,
    op = overlay_draw face img st /\
    globalCompositeOperation st = m /\ globalAlpha st = a.
Proof.
  intros Hm Ha Hin Hov.
  destruct (issued_overlay face img config c op Hin Hov) as (c1 & ->).
  eexists. split; [reflexivity|].
  destruct (blendModes_values _ _ Hm) as [Hmode Hvalid].
  destruct (opacityMap_values _ _ Ha) as [Hopacity Hrange].
  unfold blend_setters. rewrite Hmode, Hopacity.
  unfold set_globalCompositeOperation, set_globalAlpha.
  rewrite decide_True by exact Hvalid. rewrite Hrange.
  now cbn.
Qed.

End OverlayProperties.


(** ** The URL of the target image *)

Section UrlProperties.
Import Canvas Service Database.

Lemma truthy_string_nonempty (s : string) : truthy_string s = true -> s <> EmptyString.
Proof. unfold truthy_string. intros Hs ->. discriminate Hs. Qed.

(** X22: the URL [getTargetImageForExpression] chooses is not empty unless
    the image URL of the target face is; for the target face the hook makes
    of a face of the database it is the image path of that face, whatever
    the expression. *)
Theorem target_url_is_never_empty :
  (forall (targetFace : TargetFace) (e : ExpressionType),
     tf_imageUrl targetFace <> EmptyString ->
     getTargetImageForExpression targetFace e <> EmptyString) /\
  (forall (faceData : FaceData) (e : ExpressionType),
     getTargetImageForExpression (Hook.serviceTargetFace faceData) e
     = imagePath faceData).
Proof.
  split.
  - intros targetFace e Hurl. unfold getTargetImageForExpression.
    destruct (tf_expressions targetFace e) as [s|]; cbn [default].
    + destruct (truthy_string s) eqn:Hs; [now apply truthy_string_nonempty|].
      destruct (tf_expressions targetFace neutral) as [s'|]; cbn [default]; [|exact Hurl].
      destruct (truthy_string s') eqn:Hs'; [now apply truthy_string_nonempty|exact Hurl].
    + destruct (tf_expressions targetFace neutral) as [s'|]; cbn [default]; [|exact Hurl].
      destruct (truthy_string s') eqn:Hs'; [now apply truthy_string_nonempty|exact Hurl].
  - intros faceData e. unfold getTargetImageForExpression.
    destruct e; cbn; now destruct (truthy_string (imagePath faceData)).
Qed.

End UrlProperties.

(** ** Runs *)

Section ExtraRuns.
Import Canvas Service.


Lemma early_failures_keep_the_canvas_witness :
  fst (swapFace ExactExample.no_image Example.background ExactExample.face Example.target
         (ExactExample.config (1 # 2)) new_service)
  = {| success := false; imageData := None; error := Some "Face swap failed" |}.
Proof.
  destruct (early_failures_keep_the_canvas ExactExample.no_image Example.background
              ExactExample.face Example.target (ExactExample.config (1 # 2)) new_service)
    as [_ Hload].
  destruct (Hload eq_refl eq_refl) as [Hresult _]. exact Hresult.
Defined.

Lemma swapFace_forgets_the_service_witness :
  fst (swapFace (Example.env Example.overlay) Example.background
         (Example.face 50 50 100 100) Example.target
         (Example.config "high" "normal" 0.5 true) new_service)
  = fst (swapFace (Example.env Example.overlay) Example.background
           (Example.face 50 50 100 100) Example.target
           (Example.config "high" "normal" 0.5 true)
           {| canvas := Example.stage; isInitialized := true |}).
Proof.
  apply (swapFace_forgets_the_service (Example.env Example.overlay)). reflexivity.
Defined.

Lemma failed_gradient_fails_the_call_witness :
  performAdvancedSwap (Example.face 50 50 100 100) Example.overlay
    (Example.config "high" "normal" 2 true) Example.stage
  = (Throw (DOMException "IndexSizeError"), Example.stage) /\
  error (fst (swapFace (Example.env Example.overlay) Example.background
                (Example.face 50 50 100 100) Example.target
                (Example.config "high" "normal" 2 true) new_service))
  = Some "IndexSizeError" /\
  cv_surface (canvas (snd (swapFace (Example.env Example.overlay) Example.background
                             (Example.face 50 50 100 100) Example.target
                             (Example.config "high" "normal" 2 true) new_service)))
  = frame_only Example.background.
Proof.
  destruct (failed_gradient_fails_the_call (Example.face 50 50 100 100)
              (Example.config "high" "normal" 2 true) (DOMException "IndexSizeError"))
    as (_ & Hswap & _ & Hcall); [vm_compute; reflexivity | vm_compute; reflexivity |].
  split; [apply Hswap|].
  apply (Hcall (Example.env Example.overlay) Example.background Example.target new_service
           Example.overlay); vm_compute; reflexivity.
Defined.

Lemma success_returns_the_canvas_witness :
  imageData (fst (swapFace (Example.env Example.overlay) Example.background
                    (Example.face 50 50 100 100) Example.target
                    (Example.config "high" "normal" 0.5 true) new_service))
  = Some (Pixels 0 0 640 480
            (cv_surface
               (canvas (snd (swapFace (Example.env Example.overlay) Example.background
                               (Example.face 50 50 100 100) Example.target
                               (Example.config "high" "normal" 0.5 true) new_service))))).
Proof.
  destruct (success_returns_the_canvas (Example.env Example.overlay) Example.background
              (Example.face 50 50 100 100) Example.target
              (Example.config "high" "normal" 0.5 true) new_service)
    as (_ & _ & _ & _ & _ & _ & Hexact); [vm_compute; reflexivity|].
  destruct Hexact as [Hdata _];
    [vm_compute; reflexivity | vm_compute; reflexivity | vm_compute; reflexivity
    | discriminate | discriminate |].
  exact Hdata.
Defined.

Lemma overlay_is_drawn_as_configured_witness :
  existsb (is_overlay Example.overlay)
    (issued (performAdvancedSwap (Example.face 50 50 100 100) Example.overlay
               (Example.config "high" "overlay" 0.5 true)) Example.stage) = true /\
  forall op,
    In op (issued (performAdvancedSwap (Example.face 50 50 100 100) Example.overlay
                     (Example.config "high" "overlay" 0.5 true)) Example.stage) ->
    is_overlay Example.overlay op = true ->
    exists st,
      op = overlay_draw (Example.face 50 50 100 100) Example.overlay st /\
      globalCompositeOperation st = "overlay" /\ globalAlpha st = 0.95%float.
Proof.
  split; [vm_compute; reflexivity|].
  intros op.
  apply (overlay_is_drawn_as_configured (Example.face 50 50 100 100) Example.overlay
           (Example.config "high" "overlay" 0.5 true) Example.stage "overlay" 0.95%float);
    vm_compute; reflexivity.
Defined.

End ExtraRuns.
